(** * Re-Sizer: the batch image pipeline of [ReSizer/resizer_app.py]

    A shallow embedding of [ImageProcessor] (the per-file transform and the
    discovery of candidate files), of [ProcessingThread] (the coordinator
    that fans the files out to a thread pool, collects the results as they
    complete, reports progress and honours cancellation) and of
    [ReSizerApp] (the window that starts the thread and handles its
    signals), followed by the properties of the pipeline.

    Python integers are [Z]; Python [float] is IEEE binary64, taken from
    the Standard Library's [SpecFloat]; a Python call that can raise returns
    a [result]; the file system and the image library (Pillow) are an
    interface, [ImageCodec], over an abstract world. *)

From Stdlib Require Import ZArith List String Ascii Bool Lia Permutation Sorted.
From Stdlib Require Import DecimalString SpecFloat.
Import ListNotations.

Local Open Scope string_scope.
Local Open Scope list_scope.
Local Open Scope Z_scope.

(** ** Python values shared by the whole program *)

(** An instance of Python's [Exception]; [exc_str e] is [str(e)].  Every
    error the file system, Pillow and the thread pool raise is one
    ([OSError], [ValueError], [ZeroDivisionError], ...). *)
Record PyException : Type := mkException { exc_str : string }.

Inductive result (A : Type) : Type :=
| Return (a : A)
| Raise (e : PyException).
Arguments Return {A} a.
Arguments Raise {A} e.

(** [str(n)] for a Python [int]. *)
Definition str_of_int (n : Z) : string := NilZero.string_of_int (Z.to_int n).

(** ** [pathlib]: the part of [Path] the program calls *)

Module Pathlib.

(** A path is its directory and its final component; two paths are equal
    when both agree (POSIX flavour). *)
Record Path : Type := mkPath { parent : string; name : string }.

Definition Path_eqb (p q : Path) : bool :=
  String.eqb (parent p) (parent q) && String.eqb (name p) (name q).

Definition path_str (p : Path) : string := parent p ++ "/" ++ name p.

(** [s.rfind(c)]: the index of the last occurrence of [c]. *)
Fixpoint rfind (c : ascii) (s : string) : option nat :=
  match s with
  | EmptyString => None
  | String a s' =>
      match rfind c s' with
      | Some i => Some (S i)
      | None => if Ascii.eqb a c then Some 0%nat else None
      end
  end.

(** [PurePath.suffix]: [name[i:]] when [0 < i < len(name) - 1] for
    [i = name.rfind('.')], else the empty string. *)
Definition suffix (p : Path) : string :=
  let nm := name p in
  match rfind "." nm with
  | Some i =>
      if Nat.ltb 0 i && Nat.ltb i (String.length nm - 1)%nat
      then substring i (String.length nm - i)%nat nm
      else ""
  | None => ""
  end.

(** [PurePath.stem]: the name without its suffix. *)
Definition stem (p : Path) : string :=
  let nm := name p in
  match rfind "." nm with
  | Some i =>
      if Nat.ltb 0 i && Nat.ltb i (String.length nm - 1)%nat
      then substring 0 i nm
      else nm
  | None => nm
  end.

(** [PurePath.with_suffix(suffix)], for a well-formed [suffix] argument
    (one that starts with a dot and holds no separator, as [".webp"]):
    a path without a name raises [ValueError], with the [repr] of the
    path in its message. *)
Definition with_suffix (p : Path) (sfx : string) : result Path :=
  let nm := name p in
  if String.eqb nm "" then
    Raise (mkException ("PosixPath('" ++ path_str p ++ "') has an empty name"))
  else
    let old_suffix := suffix p in
    let nm' :=
      (if String.eqb old_suffix "" then nm ++ sfx
       else substring 0 (String.length nm - String.length old_suffix) nm ++ sfx)%string in
    Return (mkPath (parent p) nm').

(** [str.lower()] on ASCII letters. *)
Definition lower_ascii (a : ascii) : ascii :=
  let n := nat_of_ascii a in
  if Nat.leb 65 n && Nat.leb n 90 then ascii_of_nat (n + 32)%nat else a.

Fixpoint lower (s : string) : string :=
  match s with
  | EmptyString => EmptyString
  | String a s' => String (lower_ascii a) (lower s')
  end.

End Pathlib.
Import Pathlib.

(** ** Python [float] arithmetic used by the resize computation *)

Module PyFloat.

Definition prec : Z := 53.
Definition emax : Z := 1024.

(** An integer as an exact (unnormalised) binary float. *)
Definition of_int (n : Z) : spec_float :=
  match n with
  | Z0 => S754_zero false
  | Zpos p => S754_finite false p 0
  | Zneg p => S754_finite true p 0
  end.

(** [a / b] on two [int]s: the correctly rounded quotient,
    [ZeroDivisionError] for a zero divisor, [OverflowError] for a quotient
    beyond the range of a [float]. *)
Definition truediv (a b : Z) : result spec_float :=
  if b =? 0 then Raise (mkException "division by zero")
  else
    match SFdiv prec emax (of_int a) (of_int b) with
    | S754_infinity _ =>
        Raise (mkException "integer division result too large for a float")
    | q => Return q
    end.

(** [x * n] for a [float] [x] and an [int] [n]. *)
Definition mul_int (x : spec_float) (n : Z) : spec_float :=
  SFmul prec emax x (of_int n).

(** [int(x)]: truncation towards zero; NaN and infinities raise. *)
Definition to_int (x : spec_float) : result Z :=
  match x with
  | S754_zero _ => Return 0
  | S754_finite s m e =>
      let a := if 0 <=? e then Z.shiftl (Zpos m) e else Z.shiftr (Zpos m) (- e) in
      Return (if s then - a else a)
  | S754_infinity _ =>
      Raise (mkException "cannot convert float infinity to integer")
  | S754_nan =>
      Raise (mkException "cannot convert float NaN to integer")
  end.

End PyFloat.

(** ** The world: file system and image library

    [process_image] and [find_images] touch the world only through Pillow
    and [pathlib].  Those calls are an interface over an abstract world [W]:
    each takes the world, may change it, and returns or raises. *)

(** What the program reads of an opened [PIL.Image]. *)
Record Image : Type := mkImage { size : Z * Z; mode : string }.

(** The keyword arguments of [Image.save]; [kw_exif] is the optional
    ['exif'] key. *)
Record save_kwargs : Type := mkSaveKwargs {
  kw_format : string;
  kw_lossless : bool;
  kw_quality : Z;
  kw_exif : option string
}.

Class ImageCodec (W : Type) : Type := {
  Image_open : Path -> W -> result Image * W;
  Image_close : Image -> W -> W;
  Image_info_get : Image -> string -> W -> result (option string) * W;
  Image_resize : Image -> Z * Z -> string -> W -> result Image * W;
  Image_convert : Image -> string -> W -> result Image * W;
  Image_save : Image -> Path -> save_kwargs -> W -> result unit * W;
  Path_exists : Path -> W -> result bool * W;
  Path_unlink : Path -> W -> result unit * W;
  Path_rglob : Path -> W -> result (list Path) * W;
  Path_is_file : Path -> W -> result bool * W
}.

(** The calls made on the world, in the order they are made, each with
    what it returned or raised. *)
Inductive fs_event : Type :=
| EvOpen (p : Path) (r : result Image)
| EvClose (p : Path)
| EvInfoGet (key : string) (r : result (option string))
| EvResize (new_size : Z * Z) (r : result Image)
| EvConvert (to_mode : string) (r : result Image)
| EvSave (p : Path) (kw : save_kwargs) (r : result unit)
| EvExists (p : Path) (r : result bool)
| EvUnlink (p : Path) (r : result unit)
| EvRglob (p : Path) (r : result (list Path))
| EvIsFile (p : Path) (r : result bool).

(** ** A state and exception monad for code that runs in the world *)

Section WorldMonad.
Context {W : Type}.

(** The world and the calls made on it so far. *)
Definition St : Type := W * list fs_event.

Definition M (A : Type) : Type := St -> result A * St.

Definition ret {A} (a : A) : M A := fun s => (Return a, s).

Definition raise {A} (e : PyException) : M A := fun s => (Raise e, s).

Definition bind {A B} (m : M A) (k : A -> M B) : M B :=
  fun s =>
    match m s with
    | (Return a, s') => k a s'
    | (Raise e, s') => (Raise e, s')
    end.

(** [try: m  except Exception as e: h e]. *)
Definition try_except {A} (m : M A) (h : PyException -> M A) : M A :=
  fun s =>
    match m s with
    | (Return a, s') => (Return a, s')
    | (Raise e, s') => h e s'
    end.

(** A pure computation that may raise. *)
Definition lift {A} (r : result A) : M A := fun s => (r, s).

(** One call on the world, recorded. *)
Definition call {A} (ev : result A -> fs_event) (op : W -> result A * W)
  : M A :=
  fun s =>
    let '(r, w') := op (fst s) in
    (r, (w', snd s ++ [ev r])).

(** [with ctx as x: body]: [release] runs when the body returns and when
    it raises. *)
Definition with_ {A R} (ctx : M R) (release : R -> St -> St) (body : R -> M A)
  : M A :=
  fun s =>
    match ctx s with
    | (Return x, s') => let '(r, s'') := body x s' in (r, release x s'')
    | (Raise e, s') => (Raise e, s')
    end.

End WorldMonad.

Declare Scope py_scope.
Delimit Scope py_scope with py.
Notation "x <- m ;; k" := (bind m (fun x => k))
  (at level 61, m at next level, right associativity) : py_scope.
Notation "' pat <- m ;; k" := (bind m (fun x => match x with pat => k end))
  (at level 61, pat pattern, m at next level, right associativity) : py_scope.
Notation "m ;; k" := (bind m (fun _ => k))
  (at level 61, right associativity) : py_scope.

(** ** [class ImageProcessor] *)

Module ImageProcessor.
Import PyFloat.

(** Whether [pillow_heif] could be imported when the module was loaded. *)
Definition SUPPORTED_FORMATS (HEIC_SUPPORT : bool) : list string :=
  [".jpg"; ".jpeg"; ".png"; ".tiff"; ".tif"; ".bmp"]
    ++ (if HEIC_SUPPORT then [".heic"] else []).

Definition MAX_DIMENSION : Z := 3840.

(** [int((a / b) * MAX_DIMENSION)]. *)
Definition scaled (a b : Z) : result Z :=
  match truediv a b with
  | Return q => to_int (mul_int q MAX_DIMENSION)
  | Raise e => Raise e
  end.

(** The new [(new_width, new_height)] of lines 66-71. *)
Definition new_dimensions (width height : Z) : result (Z * Z) :=
  if width >? height then
    match scaled height width with
    | Return new_height => Return (MAX_DIMENSION, new_height)
    | Raise e => Raise e
    end
  else
    match scaled width height with
    | Return new_width => Return (new_width, MAX_DIMENSION)
    | Raise e => Raise e
    end.

(** Truth value of [exif_data]: [None] and empty bytes are false. *)
Definition truthy (exif_data : option string) : bool :=
  match exif_data with
  | Some s => negb (String.eqb s "")
  | None => false
  end.

Definition skipped_message (max_dim : Z) (file_path : Path) : string :=
  "Skipped (already " ++ str_of_int max_dim ++ "px): " ++ name file_path.

Definition resized_message (max_dim new_max : Z) (file_path : Path) : string :=
  "Resized " ++ str_of_int max_dim ++ "px â†’ " ++ str_of_int new_max
    ++ "px: " ++ name file_path.

Definition error_message (file_path : Path) (e : PyException) : string :=
  "Error processing " ++ name file_path ++ ": " ++ exc_str e.

Section WithCodec.
Context {W : Type} `{ImageCodec W}.
Local Open Scope py_scope.

Definition close_image (file_path : Path) (img : Image) (s : @St W) : @St W :=
  (Image_close img (fst s), snd s ++ [EvClose file_path]).

(** The body of the [try] of [process_image], lines 49-102. *)
Definition process_image_body (file_path : Path) : M (bool * string) :=
  with_ (call (EvOpen file_path) (Image_open file_path)) (close_image file_path)
    (fun img =>
       let '(width, height) := size img in
       let max_dim := Z.max width height in
       if max_dim <=? MAX_DIMENSION then
         ret (false, skipped_message max_dim file_path)
       else
         exif_data <- try_except
                        (call (EvInfoGet "exif") (Image_info_get img "exif"))
                        (fun _ => ret None) ;;
         '(new_width, new_height) <- lift (new_dimensions width height) ;;
         img_resized <- call (EvResize (new_width, new_height))
                          (Image_resize img (new_width, new_height) "LANCZOS") ;;
         img_resized <-
           (if existsb (String.eqb (mode img_resized)) ["RGBA"; "LA"; "P"]%string
            then ret img_resized
            else if negb (String.eqb (mode img_resized) "RGB")
                 then call (EvConvert "RGB") (Image_convert img_resized "RGB")
                 else ret img_resized) ;;
         output_path <- lift (with_suffix file_path ".webp") ;;
         let save_kwargs :=
           mkSaveKwargs "WEBP" false 85
             (if truthy exif_data then exif_data else None) in
         call (EvSave output_path save_kwargs)
           (Image_save img_resized output_path save_kwargs) ;;
         (if negb (Path_eqb output_path file_path) then
            present <- call (EvExists output_path) (Path_exists output_path) ;;
            if present : bool
            then call (EvUnlink file_path) (Path_unlink file_path)
            else ret tt
          else ret tt) ;;
         ret (true,
              resized_message max_dim (Z.max new_width new_height) file_path)).

(** [ImageProcessor.process_image], lines 43-105. *)
Definition process_image (file_path : Path) : M (bool * string) :=
  try_except (process_image_body file_path)
    (fun e => ret (false, error_message file_path e)).

(** The loop of [find_images], lines 111-113. *)
Fixpoint find_images_loop (HEIC_SUPPORT : bool) (entries images : list Path)
  : M (list Path) :=
  match entries with
  | [] => ret images
  | file_path :: rest =>
      is_file <- call (EvIsFile file_path) (Path_is_file file_path) ;;
      if (is_file : bool)
         && existsb (String.eqb (lower (suffix file_path)))
              (SUPPORTED_FORMATS HEIC_SUPPORT)
      then find_images_loop HEIC_SUPPORT rest (images ++ [file_path])
      else find_images_loop HEIC_SUPPORT rest images
  end.

(** [ImageProcessor.find_images], lines 108-114. *)
Definition find_images (HEIC_SUPPORT : bool) (root_folder : Path)
  : M (list Path) :=
  entries <- call (EvRglob root_folder) (Path_rglob root_folder) ;;
  find_images_loop HEIC_SUPPORT entries [].

End WithCodec.

End ImageProcessor.

(** ** [class ProcessingThread] *)

Module ProcessingThread.
Import ImageProcessor.

(** The three Qt signals of the thread. *)
Inductive signal : Type :=
| progress_update (current total : Z)
| log_message (message : string)
| finished (total_processed total_resized total_skipped : Z).

(** What the thread does that others can see: the signals it emits and
    its calls on the thread pool. *)
Inductive event : Type :=
| Emit (sig : signal)
| Submit (img : Path)
| Shutdown (wait cancel_futures : bool).

Record t : Type := mkThread {
  folder_path : Path;
  max_workers : Z;
  is_cancelled : bool
}.

(** [a or b] where [a] is [None] or an [int]. *)
Definition py_or (a : option Z) (b : Z) : Z :=
  match a with
  | Some n => if n =? 0 then b else n
  | None => b
  end.

(** [__init__], lines 124-128; [cpu_count] is [os.cpu_count()]. *)
Definition init (folder : Path) (workers cpu_count : option Z) : t :=
  {| folder_path := folder;
     max_workers := py_or workers (Z.min 32 (py_or cpu_count 1 * 2));
     is_cancelled := false |}.

(** [cancel], lines 191-193. *)
Definition cancel (self : t) : t :=
  {| folder_path := folder_path self;
     max_workers := max_workers self;
     is_cancelled := true |}.

(** *** The thread pool

    [executor.submit] gives every image a future of its own; the pool
    runs [process_image] for each and the futures complete in an order
    the program does not control: future [i] completes at time
    [ctime i], ties in submission order. *)
Record Future : Type := mkFuture { future_id : nat; task : Path }.

Fixpoint submit_from (i : nat) (images : list Path) : list (Future * Path) :=
  match images with
  | [] => []
  | img :: rest => (mkFuture i img, img) :: submit_from (S i) rest
  end.

(** The dict [future_to_image], lines 153-156, in insertion order. *)
Definition future_to_image (images : list Path) : list (Future * Path) :=
  submit_from 0 images.

Fixpoint insert_completed (ctime : nat -> nat) (f : Future) (fs : list Future)
  : list Future :=
  match fs with
  | [] => [f]
  | g :: fs' =>
      if Nat.leb (ctime (future_id f)) (ctime (future_id g))
      then f :: fs
      else g :: insert_completed ctime f fs'
  end.

(** [as_completed(fs)]: every future of [fs], by completion time. *)
Definition as_completed (ctime : nat -> nat) (fs : list Future) : list Future :=
  fold_right (insert_completed ctime) [] fs.

Record counters : Type := mkCounters {
  processed_count : Z;
  total_resized : Z;
  total_skipped : Z
}.

(** Lines 165-178: what one collected result does to the counters. *)
Definition tally (c : counters) (r : result (bool * string)) : counters :=
  let processed := processed_count c + 1 in
  match r with
  | Return (true, _) => mkCounters processed (total_resized c + 1) (total_skipped c)
  | Return (false, _) => mkCounters processed (total_resized c) (total_skipped c + 1)
  | Raise _ => mkCounters processed (total_resized c) (total_skipped c + 1)
  end.

(** Lines 168-177: the log line of one collected result. *)
Definition result_log (r : result (bool * string)) : string :=
  match r with
  | Return (_, message) => message
  | Raise e => "Error: " ++ exc_str e
  end.

Definition scanning_message (self : t) : string :=
  "Scanning folder: " ++ path_str (folder_path self).

Definition found_message (total_files : Z) : string :=
  "Found " ++ str_of_int total_files ++ " images. Starting processing...".

Definition workers_message (self : t) : string :=
  "Using " ++ str_of_int (max_workers self) ++ " worker threads.".

Section WithCodec.
Context {W : Type} `{ImageCodec W}.

(** The pool at work: the futures run [process_image] on the world,
    one after the other in completion order; each keeps what its call
    returned or raised, which is what [future.result()] gives. *)
Fixpoint execute (fs : list Future) (s : @St W)
  : list (Future * result (bool * string)) :=
  match fs with
  | [] => []
  | f :: fs' =>
      let '(r, s') := process_image (task f) s in
      (f, r) :: execute fs' s'
  end.

(** The [for future in as_completed(...)] loop, lines 159-181.
    [cancel_requested k] tells whether the user interface has called
    [cancel] since the previous check, when the loop makes its check
    number [k] (from 0). *)
Fixpoint collect (cancel_requested : nat -> bool) (k : nat) (self : t)
    (total_files : Z) (completed : list (Future * result (bool * string)))
    (c : counters) : list event * counters :=
  match completed with
  | [] => ([], c)
  | (_, r) :: rest =>
      let self := if cancel_requested k then cancel self else self in
      if is_cancelled self then
        ([Shutdown false true; Emit (log_message "Processing cancelled.")], c)
      else
        let c := tally c r in
        let '(evs, c') :=
          collect cancel_requested (S k) self total_files rest c in
        (Emit (log_message (result_log r))
           :: Emit (progress_update (processed_count c) total_files)
           :: evs, c')
  end.

(** The handler of the outer [try], lines 186-189. *)
Definition fatal (format_exc : PyException -> string) (e : PyException)
  : list event :=
  [Emit (log_message ("Fatal error: " ++ exc_str e));
   Emit (log_message (format_exc e));
   Emit (finished 0 0 0)].

(** [run], lines 130-189.  [format_exc e] is the text
    [traceback.format_exc()] gives while [e] is handled;
    [ThreadPoolExecutor(max_workers=n)] raises [ValueError] when [n <= 0];
    leaving the [with] block calls [shutdown(wait=True)]. *)
Definition run (HEIC_SUPPORT : bool) (format_exc : PyException -> string)
    (cancel_requested : nat -> bool) (ctime : nat -> nat)
    (self : t) (s : @St W) : list event :=
  Emit (log_message (scanning_message self))
  :: match find_images HEIC_SUPPORT (folder_path self) s with
   | (Raise e, _) => fatal format_exc e
   | (Return images, s1) =>
       let total_files := Z.of_nat (List.length images) in
       if total_files =? 0 then
         [Emit (log_message "No supported images found.");
          Emit (finished 0 0 0)]
       else
         Emit (log_message (found_message total_files))
         :: Emit (log_message (workers_message self))
         :: (if max_workers self <=? 0 then
               fatal format_exc
                 (mkException "max_workers must be greater than 0")
             else
               let futures := map fst (future_to_image images) in
               let '(evs, c) :=
                 collect cancel_requested 0 self total_files
                   (execute (as_completed ctime futures) s1)
                   (mkCounters 0 0 0) in
               map Submit images
                 ++ evs
                 ++ [Shutdown true false;
                     Emit (finished (processed_count c) (total_resized c)
                             (total_skipped c))])
   end.

End WithCodec.

End ProcessingThread.

(** ** A small world to run the program in

    Files are kept in an association list; a file is a decodable image of
    some size or bytes no decoder accepts.  Nothing fails here but opening
    what is not an image and touching what is not there. *)

Module Sim.

Inductive file : Type :=
| ImageFile (width height : Z)
| Garbage.

Definition World : Type := list (Path * file).

Fixpoint lookup (p : Path) (w : World) : option file :=
  match w with
  | [] => None
  | (q, f) :: w' => if Path_eqb p q then Some f else lookup p w'
  end.

Fixpoint remove (p : Path) (w : World) : World :=
  match w with
  | [] => []
  | (q, f) :: w' => if Path_eqb p q then remove p w' else (q, f) :: remove p w'
  end.

Definition is_present (p : Path) (w : World) : bool :=
  match lookup p w with
  | Some _ => true
  | None => false
  end.

Definition sim_open (p : Path) (w : World) : result Image * World :=
  match lookup p w with
  | Some (ImageFile width height) => (Return (mkImage (width, height) "RGB"), w)
  | Some Garbage => (Raise (mkException "cannot identify image file"), w)
  | None => (Raise (mkException "No such file or directory"), w)
  end.

Definition sim_save (img : Image) (p : Path) (kw : save_kwargs) (w : World)
  : result unit * World :=
  (Return tt, (p, ImageFile (fst (size img)) (snd (size img))) :: remove p w).

Definition sim_unlink (p : Path) (w : World) : result unit * World :=
  if is_present p w then (Return tt, remove p w)
  else (Raise (mkException "No such file or directory"), w).

#[global] Instance codec : ImageCodec World := {|
  Image_open := sim_open;
  Image_close := fun _ w => w;
  Image_info_get := fun _ _ w => (Return None, w);
  Image_resize := fun img new_size _ w => (Return (mkImage new_size (mode img)), w);
  Image_convert := fun img to_mode w => (Return (mkImage (size img) to_mode), w);
  Image_save := sim_save;
  Path_exists := fun p w => (Return (is_present p w), w);
  Path_unlink := sim_unlink;
  Path_rglob := fun _ w => (Return (map fst w), w);
  Path_is_file := fun p w => (Return (is_present p w), w)
|}.

Definition format_exc (e : PyException) : string :=
  "Traceback (most recent call last): " ++ exc_str e.

Definition photo (n : string) : Path := mkPath "/photos" n.

(** Ten candidate files; the fifth cannot be decoded, the others are
    small enough to be left alone. *)
Definition ten_files : World :=
  [(photo "01.jpg", ImageFile 800 600);
   (photo "02.jpg", ImageFile 800 600);
   (photo "03.jpg", ImageFile 800 600);
   (photo "04.jpg", ImageFile 800 600);
   (photo "05.jpg", Garbage);
   (photo "06.jpg", ImageFile 800 600);
   (photo "07.jpg", ImageFile 800 600);
   (photo "08.jpg", ImageFile 800 600);
   (photo "09.jpg", ImageFile 800 600);
   (photo "10.jpg", ImageFile 800 600)].

(** Three files: one to shrink, one at the limit, one broken. *)
Definition three_files : World :=
  [(photo "big.png", ImageFile 7680 4320);
   (photo "edge.jpg", ImageFile 3840 2160);
   (photo "bad.bmp", Garbage)].

End Sim.

(** ** The outcome of one file, as the specification names it

    [process_image] returns a pair; the three outcomes are told apart by
    how the body of its [try] ends. *)

Inductive outcome : Type := Transformed | Skipped | Failed.

Definition outcome_of (r : result (bool * string)) : outcome :=
  match r with
  | Return (true, _) => Transformed
  | Return (false, _) => Skipped
  | Raise _ => Failed
  end.

Definition outcome_eqb (a b : outcome) : bool :=
  match a, b with
  | Transformed, Transformed | Skipped, Skipped | Failed, Failed => true
  | _, _ => false
  end.

Definition count_outcome (o : outcome) (os : list outcome) : Z :=
  Z.of_nat (List.length (filter (outcome_eqb o) os)).

Section Outcomes.
Context {W : Type} `{ImageCodec W}.
Import ImageProcessor ProcessingThread.

(** The outcomes of the futures, in the order [execute] runs them. *)
Fixpoint execute_outcomes (fs : list Future) (s : @St W) : list outcome :=
  match fs with
  | [] => []
  | f :: fs' =>
      outcome_of (fst (process_image_body (task f) s))
        :: execute_outcomes fs' (snd (process_image (task f) s))
  end.

End Outcomes.

(** The summary the specification describes, with failures counted apart
    from skips. *)
Record BatchSummary : Type := mkSummary {
  totalDiscovered : Z;
  totalCompleted : Z;
  totalTransformed : Z;
  totalSkipped : Z;
  totalFailed : Z
}.

Definition summary_of (discovered : Z) (os : list outcome) : BatchSummary :=
  {| totalDiscovered := discovered;
     totalCompleted := Z.of_nat (List.length os);
     totalTransformed := count_outcome Transformed os;
     totalSkipped := count_outcome Skipped os;
     totalFailed := count_outcome Failed os |}.

(** The smaller side the specification describes: the exact quotient
    [smaller * 3840 / larger], truncated. *)
Definition truncated_scale (smaller larger : Z) : Z :=
  Z.quot (smaller * ImageProcessor.MAX_DIMENSION) larger.

(** The calls that only read: opening, asking for metadata, resizing and
    converting in memory. *)
Definition reads_only (ev : fs_event) : bool :=
  match ev with
  | EvOpen _ _ | EvInfoGet _ _ | EvResize _ _ | EvConvert _ _ => true
  | _ => false
  end.

(** ** What an observer sees of a run *)

Module Observer.
Import ProcessingThread.

(** The events of the loop iterations that handle the results [rs], one
    after the other, from the counters [c]: for each result its log line
    and a progress event. *)
Fixpoint iterations (total_files : Z) (rs : list (result (bool * string)))
    (c : counters) : list event :=
  match rs with
  | [] => []
  | r :: rs' =>
      Emit (log_message (result_log r))
        :: Emit (progress_update (processed_count (tally c r)) total_files)
        :: iterations total_files rs' (tally c r)
  end.

Definition tally_all (rs : list (result (bool * string))) (c : counters)
  : counters :=
  fold_left tally rs c.

(** How many of [n] results the loop handles before a check finds the flag
    set: check number [k] finds it set when it was set already or the user
    interface has called [cancel] since the previous check. *)
Fixpoint checks_passed (cancel_requested : nat -> bool) (k : nat)
    (cancelled : bool) (n : nat) : nat :=
  match n with
  | O => O
  | S n' =>
      if cancel_requested k || cancelled then O
      else S (checks_passed cancel_requested (S k) false n')
  end.

(** What the loop does when a check finds the flag set. *)
Definition cancellation : list event :=
  [Shutdown false true; Emit (log_message "Processing cancelled.")].

(** The [(current, total)] pairs of the progress events of a trace. *)
Fixpoint progress_events (tr : list event) : list (Z * Z) :=
  match tr with
  | [] => []
  | Emit (progress_update current total) :: tr' =>
      (current, total) :: progress_events tr'
  | _ :: tr' => progress_events tr'
  end.

(** The [finished] events of a trace. *)
Fixpoint finished_events (tr : list event) : list (Z * Z * Z) :=
  match tr with
  | [] => []
  | Emit (finished p r s) :: tr' => (p, r, s) :: finished_events tr'
  | _ :: tr' => finished_events tr'
  end.

(** The images handed to the pool. *)
Fixpoint submitted (tr : list event) : list Path :=
  match tr with
  | [] => []
  | Submit img :: tr' => img :: submitted tr'
  | _ :: tr' => submitted tr'
  end.

(** The first three log lines of a run that found images. *)
Definition preamble (self : t) (total_files : Z) : list event :=
  [Emit (log_message (scanning_message self));
   Emit (log_message (found_message total_files));
   Emit (log_message (workers_message self))].

Definition no_counts : counters := mkCounters 0 0 0.

Definition summary (c : counters) : event :=
  Emit (finished (processed_count c) (total_resized c) (total_skipped c)).

(** No call of [cancel], before or during the run. *)
Definition never_cancelled (cancel_requested : nat -> bool) (self : t) : Prop :=
  is_cancelled self = false /\ forall k, cancel_requested k = false.

End Observer.

(** ** What the pool holds during a run *)

Section PoolView.
Context {W : Type} `{ImageCodec W}.
Import ImageProcessor ProcessingThread Observer.

(** The files [find_images] gives the run and the world it leaves; no file
    when it raises. *)
Definition discovered (HEIC_SUPPORT : bool) (self : t) (s : @St W)
  : list Path * @St W :=
  match find_images HEIC_SUPPORT (folder_path self) s with
  | (Return images, s1) => (images, s1)
  | (Raise _, s1) => ([], s1)
  end.

(** The futures of the run in the order they complete. *)
Definition completion_order (HEIC_SUPPORT : bool) (ctime : nat -> nat)
    (self : t) (s : @St W) : list Future :=
  as_completed ctime
    (map fst (future_to_image (fst (discovered HEIC_SUPPORT self s)))).


(** Their outcomes. *)
Definition pool_outcomes (HEIC_SUPPORT : bool) (ctime : nat -> nat)
    (self : t) (s : @St W) : list outcome :=
  execute_outcomes (completion_order HEIC_SUPPORT ctime self s)
    (snd (discovered HEIC_SUPPORT self s)).


End PoolView.

(** ** Runs in the small world *)

Module Scenario.
Import ImageProcessor ProcessingThread Observer.

(** [ProcessingThread("/photos")] on a machine with four processors. *)
Definition thread : t := init (mkPath "" "photos") None (Some 4).

(** The futures complete in the order they were submitted. *)
Definition in_order (i : nat) : nat := i.

(** They complete in the reverse order. *)
Definition reversed (i : nat) : nat := (100 - i)%nat.

Definition never (k : nat) : bool := false.

(** [cancel] is called once, after the first result has been handled. *)
Definition after_one (k : nat) : bool := Nat.eqb k 1.

(** A folder without a supported image. *)
Definition no_images : Sim.World :=
  [(Sim.photo "notes.txt", Sim.Garbage);
   (Sim.photo "clip.webp", Sim.ImageFile 5000 5000)].

(** The world after discovery. *)
Definition three_found : @St Sim.World :=
  snd (find_images false (folder_path thread) (Sim.three_files, [])).

Definition ten_found : @St Sim.World :=
  snd (find_images false (folder_path thread) (Sim.ten_files, [])).

Definition nothing_found : @St Sim.World :=
  snd (find_images false (folder_path thread) (no_images, [])).

Definition ten_trace : list event :=
  run false Sim.format_exc never in_order thread (Sim.ten_files, []).

Definition ten_outcomes : list outcome :=
  pool_outcomes false in_order thread (Sim.ten_files, []).

End Scenario.

(** The run reports the summary [b] of the specification: its [finished]
    event carries the completed, the transformed and the skipped count of
    [b], the failures being counted apart in [totalFailed b]. *)
Definition reports_summary (tr : list ProcessingThread.event) (b : BatchSummary)
  : Prop :=
  Observer.finished_events tr
  = [(totalCompleted b, totalTransformed b, totalSkipped b)].

(** ** Discovery, seen from outside *)

Module Discovery.
Import ImageProcessor.

(** The test of line 112 on the suffix: [suffix.lower() in SUPPORTED_FORMATS]. *)
Definition is_supported (HEIC_SUPPORT : bool) (p : Path) : bool :=
  existsb (String.eqb (lower (suffix p))) (SUPPORTED_FORMATS HEIC_SUPPORT).

Definition is_heic (p : Path) : bool := String.eqb (lower (suffix p)) ".heic".

(** The [is_file()] calls that returned, one per entry, with their answers. *)
Definition is_file_events (answers : list (Path * bool)) : list fs_event :=
  map (fun pa => EvIsFile (fst pa) (Return (snd pa))) answers.

(** The entries kept: those reported as files whose suffix is supported. *)
Definition kept (HEIC_SUPPORT : bool) (answers : list (Path * bool))
  : list Path :=
  map fst (filter (fun pa => snd pa && is_supported HEIC_SUPPORT (fst pa))
             answers).

Section WithCodec.
Context {W : Type} `{ImageCodec W}.
Local Open Scope py_scope.

(** Asking [is_file()] of every entry in turn. *)
Fixpoint ask_is_file (entries : list Path) : M (list (Path * bool)) :=
  match entries with
  | [] => ret []
  | file_path :: rest =>
      is_file <- call (EvIsFile file_path) (Path_is_file file_path) ;;
      answers <- ask_is_file rest ;;
      ret ((file_path, is_file) :: answers)
  end.

End WithCodec.

End Discovery.

(** ** Rounding, for the proofs about [float] *)

Module Rounding.

(** [int((a / b) * k)] for [int]s [a], [b] and [k]: the shape of the two
    float computations of the program. *)
Definition scale (a b k : Z) : result Z :=
  match PyFloat.truediv a b with
  | Return q => PyFloat.to_int (PyFloat.mul_int q k)
  | Raise e => Raise e
  end.

(** A mantissa with its round and sticky bits stands for the exact value
    [N / D]: the bits tell where [N / D] lies between [m] and [m + 1]. *)
Definition rec_inv (mrs : shr_record) (N D : Z) : Prop :=
  0 < D /\ 0 <= shr_m mrs /\
  match shr_r mrs, shr_s mrs with
  | false, false => N = shr_m mrs * D
  | false, true => shr_m mrs * D < N /\ 2 * N < (2 * shr_m mrs + 1) * D
  | true, false => 2 * N = (2 * shr_m mrs + 1) * D
  | true, true => (2 * shr_m mrs + 1) * D < 2 * N /\ N < (shr_m mrs + 1) * D
  end.

End Rounding.

(** ** Python text the user types

    The text of a widget is a Python [str]: a sequence of Unicode code
    points. *)

Module PyStr.

Definition str : Type := list N.

(** A literal in ASCII. *)
Definition of_string (s : string) : str :=
  map N_of_ascii (list_ascii_of_string s).

(** The characters of a text in Latin-1. *)
Definition to_string (s : str) : string :=
  string_of_list_ascii (map ascii_of_N s).

(** Truth value of a [str]: the empty one is false. *)
Definition is_empty (s : str) : bool :=
  match s with
  | [] => true
  | _ :: _ => false
  end.

(** White space as [str.strip()] and [str.isspace()] know it: the code
    points U+0009 to U+000D, U+001C to U+0020, U+0085, U+00A0, U+1680,
    U+2000 to U+200A, U+2028, U+2029, U+202F, U+205F and U+3000. *)
Definition is_space (c : N) : bool :=
  ((9 <=? c) && (c <=? 13)
   || (28 <=? c) && (c <=? 32)
   || (c =? 133) || (c =? 160) || (c =? 5760)
   || (8192 <=? c) && (c <=? 8202)
   || (c =? 8232) || (c =? 8233) || (c =? 8239) || (c =? 8287)
   || (c =? 12288))%N.

Fixpoint lstrip (s : str) : str :=
  match s with
  | [] => []
  | c :: s' => if is_space c then lstrip s' else s
  end.

Fixpoint rstrip (s : str) : str :=
  match s with
  | [] => []
  | c :: s' =>
      match rstrip s' with
      | [] => if is_space c then [] else [c]
      | kept => c :: kept
      end
  end.

(** [s.strip()]. *)
Definition strip (s : str) : str := rstrip (lstrip s).

(** Text that holds white space only. *)
Fixpoint blank (s : str) : bool :=
  match s with
  | [] => true
  | c :: s' => is_space c && blank s'
  end.

End PyStr.

(** ** Two more worlds *)

(** A disk that fails: every call on the file system and on Pillow raises
    [OSError]. *)
Module Unreadable.

Definition io_error {A : Type} (w : unit) : result A * unit :=
  (Raise (mkException "[Errno 5] Input/output error"), w).

#[global] Instance codec : ImageCodec unit := {|
  Image_open := fun _ => io_error;
  Image_close := fun _ w => w;
  Image_info_get := fun _ _ => io_error;
  Image_resize := fun _ _ _ => io_error;
  Image_convert := fun _ _ => io_error;
  Image_save := fun _ _ _ => io_error;
  Path_exists := fun _ => io_error;
  Path_unlink := fun _ => io_error;
  Path_rglob := fun _ => io_error;
  Path_is_file := fun _ => io_error
|}.

End Unreadable.

(** The files of [Sim] with their folders: a folder exists when a file
    lies in it or below it, and [rglob] gives the files below the folder
    it is asked for. *)
Module Disk.

Record World : Type := mkDisk { files : Sim.World }.

Definition below (folder p : Path) : bool :=
  String.prefix (path_str folder ++ "/") (parent p ++ "/").

Definition is_folder (p : Path) (w : World) : bool :=
  existsb (fun entry => below p (fst entry)) (files w).

Definition on_files {A : Type} (op : Sim.World -> result A * Sim.World)
    (w : World) : result A * World :=
  (fst (op (files w)), mkDisk (snd (op (files w)))).

#[global] Instance codec : ImageCodec World := {|
  Image_open := fun p => on_files (Sim.sim_open p);
  Image_close := fun _ w => w;
  Image_info_get := fun _ _ w => (Return None, w);
  Image_resize := fun img new_size _ w => (Return (mkImage new_size (mode img)), w);
  Image_convert := fun img to_mode w => (Return (mkImage (size img) to_mode), w);
  Image_save := fun img p kw => on_files (Sim.sim_save img p kw);
  Path_exists := fun p w =>
    (Return (Sim.is_present p (files w) || is_folder p w), w);
  Path_unlink := fun p => on_files (Sim.sim_unlink p);
  Path_rglob := fun p w =>
    (Return (map fst (filter (fun entry => below p (fst entry)) (files w))), w);
  Path_is_file := fun p w => (Return (Sim.is_present p (files w)), w)
|}.

(** [Path(text)] for a text [dir/name] without a trailing separator or dot
    segments. *)
Definition path_of (text : PyStr.str) : Path :=
  let text := PyStr.to_string text in
  match rfind "/" text with
  | Some i =>
      mkPath (substring 0 i text)
        (substring (S i) (String.length text - S i) text)
  | None => mkPath "." text
  end.

End Disk.

(** ** [class ReSizerApp]

    The window: the widgets the methods read and write, the message boxes
    they show and what they ask of the thread.  The static layout of
    [init_ui] (titles, fonts, sizes) is left out, and so is the position of
    the scroll bar of the log. *)

Module ReSizerApp.
Import ImageProcessor.

(** The two buttons of the question asked by [closeEvent]. *)
Inductive StandardButton : Type := Yes | No.

(** What a method does besides changing the widgets. *)
Inductive effect : Type :=
| Warning (title text : string)
| Information (title text : string)
| Question (title text : string) (reply : StandardButton)
| ThreadStart (thread : ProcessingThread.t)
| ThreadCancel
| ThreadWait
| EventAccept
| EventIgnore.

Record t : Type := mkApp {
  processing_thread : option ProcessingThread.t;
  folder_input_text : PyStr.str;
  folder_input_enabled : bool;
  browse_button_enabled : bool;
  start_button_enabled : bool;
  progress_bar_value : Z;
  status_label_text : string;
  status_label_style : string;
  log_output : list string
}.

(** Line 290. *)
Definition formats_text (HEIC_SUPPORT : bool) : string :=
  "Supported: JPG, JPEG, PNG, TIFF, BMP"
    ++ (if HEIC_SUPPORT then ", HEIC" else "").

(** [__init__] and the widgets [init_ui] creates, lines 199-294. *)
Definition init : t :=
  {| processing_thread := None;
     folder_input_text := [];
     folder_input_enabled := true;
     browse_button_enabled := true;
     start_button_enabled := true;
     progress_bar_value := 0;
     status_label_text := "Status: Idle";
     status_label_style := "font-weight: bold; color: #666;";
     log_output := [] |}.

(** [QProgressBar.setValue] with the default range 0..100: a value out of
    the range changes nothing. *)
Definition progress_bar_setValue (self : t) (value : Z) : t :=
  if (0 <=? value) && (value <=? 100) then
    {| processing_thread := processing_thread self;
       folder_input_text := folder_input_text self;
       folder_input_enabled := folder_input_enabled self;
       browse_button_enabled := browse_button_enabled self;
       start_button_enabled := start_button_enabled self;
       progress_bar_value := value;
       status_label_text := status_label_text self;
       status_label_style := status_label_style self;
       log_output := log_output self |}
  else self.

Definition status_label_setText (self : t) (text : string) : t :=
  {| processing_thread := processing_thread self;
     folder_input_text := folder_input_text self;
     folder_input_enabled := folder_input_enabled self;
     browse_button_enabled := browse_button_enabled self;
     start_button_enabled := start_button_enabled self;
     progress_bar_value := progress_bar_value self;
     status_label_text := text;
     status_label_style := status_label_style self;
     log_output := log_output self |}.

Definition status_label_setStyleSheet (self : t) (style : string) : t :=
  {| processing_thread := processing_thread self;
     folder_input_text := folder_input_text self;
     folder_input_enabled := folder_input_enabled self;
     browse_button_enabled := browse_button_enabled self;
     start_button_enabled := start_button_enabled self;
     progress_bar_value := progress_bar_value self;
     status_label_text := status_label_text self;
     status_label_style := style;
     log_output := log_output self |}.

(** The three [setEnabled] calls of lines 321-323 and 355-357. *)
Definition controls_setEnabled (self : t) (enabled : bool) : t :=
  {| processing_thread := processing_thread self;
     folder_input_text := folder_input_text self;
     folder_input_enabled := enabled;
     browse_button_enabled := enabled;
     start_button_enabled := enabled;
     progress_bar_value := progress_bar_value self;
     status_label_text := status_label_text self;
     status_label_style := status_label_style self;
     log_output := log_output self |}.

Definition log_output_clear (self : t) : t :=
  {| processing_thread := processing_thread self;
     folder_input_text := folder_input_text self;
     folder_input_enabled := folder_input_enabled self;
     browse_button_enabled := browse_button_enabled self;
     start_button_enabled := start_button_enabled self;
     progress_bar_value := progress_bar_value self;
     status_label_text := status_label_text self;
     status_label_style := status_label_style self;
     log_output := [] |}.

Definition set_processing_thread (self : t) (thread : ProcessingThread.t) : t :=
  {| processing_thread := Some thread;
     folder_input_text := folder_input_text self;
     folder_input_enabled := folder_input_enabled self;
     browse_button_enabled := browse_button_enabled self;
     start_button_enabled := start_button_enabled self;
     progress_bar_value := progress_bar_value self;
     status_label_text := status_label_text self;
     status_label_style := status_label_style self;
     log_output := log_output self |}.

(** [folder_input.setText]; typing into the field changes the same text. *)
Definition folder_input_setText (self : t) (text : PyStr.str) : t :=
  {| processing_thread := processing_thread self;
     folder_input_text := text;
     folder_input_enabled := folder_input_enabled self;
     browse_button_enabled := browse_button_enabled self;
     start_button_enabled := start_button_enabled self;
     progress_bar_value := progress_bar_value self;
     status_label_text := status_label_text self;
     status_label_style := status_label_style self;
     log_output := log_output self |}.

(** [browse_folder], lines 296-306; [folder] is what the dialog returns,
    the empty string when it is dismissed. *)
Definition browse_folder (self : t) (folder : PyStr.str) : t :=
  if negb (PyStr.is_empty folder) then folder_input_setText self folder
  else self.

(** [append_log], lines 345-350. *)
Definition append_log (self : t) (message : string) : t :=
  {| processing_thread := processing_thread self;
     folder_input_text := folder_input_text self;
     folder_input_enabled := folder_input_enabled self;
     browse_button_enabled := browse_button_enabled self;
     start_button_enabled := start_button_enabled self;
     progress_bar_value := progress_bar_value self;
     status_label_text := status_label_text self;
     status_label_style := status_label_style self;
     log_output := log_output self ++ [message] |}.

Definition running_text (current total : Z) : string :=
  "Status: Running (" ++ str_of_int current ++ "/" ++ str_of_int total ++ ")".

(** [update_progress], lines 338-343. *)
Definition update_progress (self : t) (current total : Z) : result t :=
  if total >? 0 then
    match Rounding.scale current total 100 with
    | Return percentage =>
        Return (status_label_setText (progress_bar_setValue self percentage)
                  (running_text current total))
    | Raise e => Raise e
    end
  else Return self.

(** The line feed. *)
Definition nl : string := String (ascii_of_nat 10) EmptyString.

(** [s * n]. *)
Fixpoint str_times (s : string) (n : nat) : string :=
  match n with
  | O => EmptyString
  | S n' => s ++ str_times s n'
  end.

(** Lines 364-369. *)
Definition summary_text (total_processed total_resized total_skipped : Z)
  : string :=
  nl ++ str_times "=" 50 ++ nl
    ++ "Re-sizing Complete!" ++ nl
    ++ str_times "=" 50 ++ nl
    ++ "Total Processed: " ++ str_of_int total_processed ++ nl
    ++ "Total Resized: " ++ str_of_int total_resized ++ nl
    ++ "Total Skipped: " ++ str_of_int total_skipped ++ nl.

(** Lines 376-379. *)
Definition completion_text (total_processed total_resized total_skipped : Z)
  : string :=
  "Re-sizing complete!" ++ nl ++ nl
    ++ "Processed: " ++ str_of_int total_processed ++ nl
    ++ "Resized: " ++ str_of_int total_resized ++ nl
    ++ "Skipped: " ++ str_of_int total_skipped.

(** [processing_finished], lines 352-380. *)
Definition processing_finished (self : t)
    (total_processed total_resized total_skipped : Z) : t * list effect :=
  let self := controls_setEnabled self true in
  let self := status_label_setText self "Status: Complete" in
  let self :=
    status_label_setStyleSheet self "font-weight: bold; color: #28a745;" in
  let self :=
    append_log self (summary_text total_processed total_resized total_skipped) in
  (self,
   [Information "Complete"
      (completion_text total_processed total_resized total_skipped)]).

(** [closeEvent], lines 382-399; [isRunning] is what
    [processing_thread.isRunning()] gives and [reply] the button the user
    chooses, both asked for only when the code comes to them. *)
Definition closeEvent (self : t) (isRunning : bool) (reply : StandardButton)
  : t * list effect :=
  match processing_thread self with
  | Some thread =>
      if isRunning then
        let asked :=
          Question "Processing in Progress"
            "Processing is still running. Are you sure you want to quit?"
            reply in
        match reply with
        | Yes =>
            (set_processing_thread self (ProcessingThread.cancel thread),
             [asked; ThreadCancel; ThreadWait; EventAccept])
        | No => (self, [asked; EventIgnore])
        end
      else (self, [EventAccept])
  | None => (self, [EventAccept])
  end.

(** The connections of lines 333-335: the slot that handles what the
    thread emits; the calls on the pool are not signals. *)
Definition deliver (self : t) (ev : ProcessingThread.event)
  : result (t * list effect) :=
  match ev with
  | ProcessingThread.Emit (ProcessingThread.progress_update current total) =>
      match update_progress self current total with
      | Return self' => Return (self', [])
      | Raise e => Raise e
      end
  | ProcessingThread.Emit (ProcessingThread.log_message message) =>
      Return (append_log self message, [])
  | ProcessingThread.Emit (ProcessingThread.finished p r k) =>
      Return (processing_finished self p r k)
  | _ => Return (self, [])
  end.

(** The signals of a run, handled in the order they were emitted. *)
Fixpoint deliver_all (self : t) (tr : list ProcessingThread.event)
  : result (t * list effect) :=
  match tr with
  | [] => Return (self, [])
  | ev :: tr' =>
      match deliver self ev with
      | Return (self', effs) =>
          match deliver_all self' tr' with
          | Return (self'', effs') => Return (self'', effs ++ effs')
          | Raise e => Raise e
          end
      | Raise e => Raise e
      end
  end.

(** The three controls. *)
Definition controls_enabled (self : t) : bool * bool * bool :=
  (start_button_enabled self, browse_button_enabled self,
   folder_input_enabled self).

Section WithCodec.
Context {W : Type} `{ImageCodec W}.
(** [Path(text)], the parsing of [pathlib], and [os.cpu_count()]. *)
Variable to_path : PyStr.str -> Path.
Variable cpu_count : option Z.
Local Open Scope py_scope.

(** [start_processing], lines 308-336. *)
Definition start_processing (self : t) : M (t * list effect) :=
  let folder_path := PyStr.strip (folder_input_text self) in
  if PyStr.is_empty folder_path then
    ret (self, [Warning "No Folder" "Please select a folder first."])
  else
    found <- call (EvExists (to_path folder_path))
               (Path_exists (to_path folder_path)) ;;
    if negb found then
      ret (self,
           [Warning "Invalid Folder" "The selected folder does not exist."])
    else
      let self := controls_setEnabled self false in
      let self := log_output_clear self in
      let self := progress_bar_setValue self 0 in
      let self := status_label_setText self "Status: Running" in
      let self :=
        status_label_setStyleSheet self "font-weight: bold; color: #007acc;" in
      let thread :=
        ProcessingThread.init (to_path folder_path) None cpu_count in
      let self := set_processing_thread self thread in
      ret (self, [ThreadStart thread]).

(** The window once [start_processing] has started the thread. *)
Definition started (self : t) (folder : Path) : t :=
  {| processing_thread := Some (ProcessingThread.init folder None cpu_count);
     folder_input_text := folder_input_text self;
     folder_input_enabled := false;
     browse_button_enabled := false;
     start_button_enabled := false;
     progress_bar_value := 0;
     status_label_text := "Status: Running";
     status_label_style := "font-weight: bold; color: #007acc;";
     log_output := [] |}.

End WithCodec.

End ReSizerApp.

(** ** A session at the window

    The three files of [Sim] lie in [/photos] on a machine with four
    processors; the user has chosen the folder and presses Start. *)

Module Desk.
Import ImageProcessor ReSizerApp.

Definition disk : Disk.World := Disk.mkDisk Sim.three_files.

Definition cpu_count : option Z := Some 4.

Definition folder : Path := Disk.path_of (PyStr.of_string "/photos").

Definition window : ReSizerApp.t :=
  browse_folder ReSizerApp.init (PyStr.of_string "/photos").

(** The folder typed by hand, a no-break space before it and an
    ideographic space after it. *)
Definition typed : ReSizerApp.t :=
  folder_input_setText ReSizerApp.init
    ([160%N] ++ PyStr.of_string "/photos" ++ [12288%N; 32%N]).

(** A field that holds white space only: a tab, a no-break space, an
    ideographic space and a space. *)
Definition spaces : ReSizerApp.t :=
  folder_input_setText ReSizerApp.init [9%N; 160%N; 12288%N; 32%N].

Definition worker : ProcessingThread.t :=
  ProcessingThread.init folder None cpu_count.

(** The window and the world once Start has been pressed. *)
Definition running : ReSizerApp.t := started cpu_count window folder.

Definition after_click : @St Disk.World :=
  (disk, [EvExists folder (Return true)]).

(** The world after discovery. *)
Definition found : @St Disk.World :=
  snd (find_images false folder after_click).

(** The signals of the run when nobody cancels it. *)
Definition signals : list ProcessingThread.event :=
  ProcessingThread.run false Sim.format_exc Scenario.never Scenario.reversed
    worker after_click.

End Desk.

(** * Properties *)

(** ** Paths *)

Module PathFacts.

Lemma Path_eqb_eq (p q : Path) : Path_eqb p q = true <-> p = q.
Proof.
  destruct p as [d n], q as [d' n']; unfold Path_eqb; simpl.
  rewrite andb_true_iff, !String.eqb_eq.
  split; [intros [-> ->]; reflexivity | intros [= -> ->]; auto].
Qed.

Lemma Path_eqb_neq (p q : Path) : Path_eqb p q = false <-> p <> q.
Proof.
  rewrite <- Path_eqb_eq. destruct (Path_eqb p q); split; congruence.
Qed.

End PathFacts.

Module PathlibFacts.

Lemma substring_split (s : string) :
  forall i, (i <= String.length s)%nat ->
    (substring 0 i s ++ substring i (String.length s - i) s)%string = s.
Proof.
  induction s as [|a s IH]; intros [|i] Hi; simpl in *; try lia.
  - reflexivity.
  - f_equal. clear IH Hi. induction s as [|b s IH]; simpl; [reflexivity|].
    f_equal. exact IH.
  - f_equal. apply IH. lia.
Qed.

Lemma length_substring (s : string) :
  forall i m, (i + m <= String.length s)%nat ->
    String.length (substring i m s) = m.
Proof.
  induction s as [|a s IH]; intros [|i] [|m] Hi; simpl in *;
    try lia; try reflexivity.
  - f_equal. apply (IH 0%nat). lia.
  - apply IH. lia.
  - apply IH. lia.
Qed.

Lemma rfind_lt (c : ascii) (s : string) :
  forall i, rfind c s = Some i -> (i < String.length s)%nat.
Proof.
  induction s as [|a s IH]; simpl; intros i Hi; [discriminate|].
  destruct (rfind c s) as [j|].
  - injection Hi as <-. specialize (IH j eq_refl). lia.
  - destruct (Ascii.eqb a c); [injection Hi as <-; lia | discriminate].
Qed.

(** A name is its stem followed by its suffix. *)
Lemma name_stem_suffix (p : Path) : name p = (stem p ++ suffix p)%string.
Proof.
  unfold stem, suffix.
  destruct (rfind "." (name p)) as [i|] eqn:Hr.
  - apply rfind_lt in Hr.
    destruct (Nat.ltb 0 i && Nat.ltb i (String.length (name p) - 1)).
    + symmetry. apply substring_split. lia.
    + clear. induction (name p); simpl; congruence.
  - clear. induction (name p); simpl; congruence.
Qed.

(** [with_suffix] keeps the directory and the stem and puts the new
    suffix in place of the old one. *)
Lemma with_suffix_stem (p : Path) (sfx : string) :
  name p <> ""%string ->
  with_suffix p sfx = Return (mkPath (parent p) (stem p ++ sfx)).
Proof.
  intros Hname. unfold with_suffix.
  apply String.eqb_neq in Hname. rewrite Hname.
  unfold stem, suffix.
  destruct (rfind "." (name p)) as [i|] eqn:Hr; [|reflexivity].
  apply rfind_lt in Hr.
  destruct (Nat.ltb 0 i && Nat.ltb i (String.length (name p) - 1)) eqn:Hc;
    [|reflexivity].
  apply andb_true_iff in Hc. destruct Hc as [_ Hc]. apply Nat.ltb_lt in Hc.
  assert (Hlen : String.length
                   (substring i (String.length (name p) - i) (name p))
                 = (String.length (name p) - i)%nat)
    by (apply length_substring; lia).
  assert (Hne : String.eqb
                  (substring i (String.length (name p) - i) (name p)) ""
                = false).
  { apply String.eqb_neq. intros Heq. rewrite Heq in Hlen. simpl in Hlen. lia. }
  rewrite Hne, Hlen.
  replace (String.length (name p) - (String.length (name p) - i))%nat
    with i by lia.
  reflexivity.
Qed.

Lemma with_suffix_raises (p : Path) (sfx : string) :
  name p = ""%string -> exists e, with_suffix p sfx = Raise e.
Proof.
  intros Hname. unfold with_suffix. rewrite Hname. simpl. eauto.
Qed.

End PathlibFacts.

(** ** [ImageProcessor.process_image] *)

(** One step of the symbolic run of [process_image]: split on what the next
    call on the world, or the next test, gives. *)
Ltac run_step H :=
  match type of H with
  | context [Image_info_get ?i ?k ?w] =>
      destruct (Image_info_get i k w) as [[?exif|?e] ?w] eqn:?Hinfo
  | context [ImageProcessor.new_dimensions ?a ?b] =>
      destruct (ImageProcessor.new_dimensions a b)
        as [[?new_width ?new_height]|?e] eqn:?Hdims
  | context [Image_resize ?i ?z ?f ?w] =>
      destruct (Image_resize i z f w) as [[?img|?e] ?w] eqn:?Hresize
  | context [existsb ?f ?l] => destruct (existsb f l) eqn:?Hmode
  | context [String.eqb (mode ?i) ?m] =>
      destruct (String.eqb (mode i) m) eqn:?Hrgb
  | context [Image_convert ?i ?m ?w] =>
      destruct (Image_convert i m w) as [[?img|?e] ?w] eqn:?Hconvert
  | context [with_suffix ?p ?sfx] =>
      destruct (with_suffix p sfx) as [?output_path|?e] eqn:?Hout
  | context [Image_save ?i ?p ?kw ?w] =>
      destruct (Image_save i p kw w) as [[[]|?e] ?w] eqn:?Hsave
  | context [Path_eqb ?p ?q] => destruct (Path_eqb p q) eqn:?Hsame
  | context [Path_exists ?p ?w] =>
      destruct (Path_exists p w) as [[[|]|?e] ?w] eqn:?Hexists
  | context [Path_unlink ?p ?w] =>
      destruct (Path_unlink p w) as [[[]|?e] ?w] eqn:?Hunlink
  end;
  cbn [fst snd negb] in H; try discriminate H.

Ltac events_before_save l :=
  lazymatch l with
  | EvSave _ _ _ :: _ => constr:(@nil fs_event)
  | ?x :: ?l' => let p := events_before_save l' in constr:(x :: p)
  end.

Ltac all_but_last l :=
  lazymatch l with
  | [_] => constr:(@nil fs_event)
  | ?x :: ?l' => let p := all_but_last l' in constr:(x :: p)
  end.

Ltac events_after_save l :=
  lazymatch l with
  | EvSave _ _ _ :: ?l' => all_but_last l'
  | _ :: ?l' => events_after_save l'
  end.

Module ImageProcessorFacts.
Import ImageProcessor ProcessingThread PathFacts PathlibFacts.

Lemma with_suffix_Return (p q : Path) (sfx : string) :
  with_suffix p sfx = Return q ->
  q = mkPath (parent p) (stem p ++ sfx).
Proof.
  intros Hq. destruct (String.eqb (name p) "") eqn:Hname.
  - apply String.eqb_eq in Hname.
    destruct (with_suffix_raises p sfx Hname) as [e He]. congruence.
  - apply String.eqb_neq in Hname.
    rewrite (with_suffix_stem p sfx Hname) in Hq. congruence.
Qed.

Section WithCodec.
Context {W : Type} `{ImageCodec W}.

(** [process_image] is its body with every exception turned into a
    returned pair. *)
Lemma process_image_unfold (file_path : Path) (s : @St W) :
  process_image file_path s =
  match process_image_body file_path s with
  | (Return v, s') => (Return v, s')
  | (Raise e, s') => (Return (false, error_message file_path e), s')
  end.
Proof. reflexivity. Qed.

Lemma process_image_returns (file_path : Path) (s : @St W) :
  exists v, fst (process_image file_path s) = Return v.
Proof.
  rewrite process_image_unfold.
  destruct (process_image_body file_path s) as [[v|e] s']; simpl; eauto.
Qed.

(** Every future of the pool ends with a returned pair, and every
    future handed to the pool is run. *)
Lemma execute_all_return (fs : list Future) :
  forall s : @St W,
    map fst (execute fs s) = fs
    /\ Forall (fun fr => exists v, snd fr = Return v) (execute fs s).
Proof.
  induction fs as [|f fs IH]; intros s; simpl.
  - split; [reflexivity | constructor].
  - destruct (process_image_returns (task f) s) as [v Hv].
    destruct (process_image (task f) s) as [r s'] eqn:Hrun.
    simpl in Hv. subst r. destruct (IH s') as [Hfs Hall].
    simpl. split; [congruence|].
    constructor; [simpl; eauto | exact Hall].
Qed.

(** A file that cannot be opened: the error of [Image.open] is what the
    call reports, and nothing else is done. *)
Lemma process_image_open_fails (file_path : Path) (s : @St W)
    (e : PyException) (w' : W) :
  Image_open file_path (fst s) = (Raise e, w') ->
  process_image file_path s
  = (Return (false, error_message file_path e),
     (w', snd s ++ [EvOpen file_path (Raise e)]))
  /\ outcome_of (fst (process_image_body file_path s)) = Failed.
Proof.
  intros Hopen.
  unfold process_image, process_image_body, with_, bind, call, lift, ret,
    try_except.
  rewrite Hopen. split; reflexivity.
Qed.

(** C1: [process_image] never lets an exception out.  Whatever the
    world does, the call returns a pair; when its body raises [e]
    (while opening, resizing, encoding, writing or deleting), the pair
    is [(False, "Error processing <name>: <str(e)>")] and the world is
    left as the failing call left it.  So every future of the pool
    holds a returned pair and none of them stops the others. *)
Theorem process_image_never_raises (file_path : Path) (s : @St W) :
  (exists message_pair s',
      process_image file_path s = (Return message_pair, s')
      /\ forall e s'',
           process_image_body file_path s = (Raise e, s'') ->
           message_pair = (false, error_message file_path e) /\ s' = s'')
  /\ forall fs, map fst (execute fs s) = fs
                /\ Forall (fun fr => exists v, snd fr = Return v)
                     (execute fs s).
Proof.
  split; [|intros fs; apply execute_all_return].
  rewrite process_image_unfold.
  destruct (process_image_body file_path s) as [[v|e] s'].
  - exists v, s'. split; [reflexivity | intros e s'' Hbody; discriminate].
  - exists (false, error_message file_path e), s'.
    split; [reflexivity|].
    intros e' s'' Hbody. injection Hbody as <- <-. auto.
Qed.

(** C5: an image whose larger side is at most 3840 pixels, 3840
    included, is skipped: the call returns
    [(False, "Skipped (already <max>px): <name>")], its body ends as
    [Skipped], and the only calls on the world are the opening and the
    closing of the file: nothing is written and nothing deleted. *)
Theorem process_image_skips_within_limit
    (file_path : Path) (s : @St W) (img : Image) (w' : W) :
  Image_open file_path (fst s) = (Return img, w') ->
  Z.max (fst (size img)) (snd (size img)) <= MAX_DIMENSION ->
  process_image file_path s =
    (Return (false,
             skipped_message (Z.max (fst (size img)) (snd (size img)))
               file_path),
     (Image_close img w',
      snd s ++ [EvOpen file_path (Return img); EvClose file_path]))
  /\ outcome_of (fst (process_image_body file_path s)) = Skipped.
Proof.
  intros Hopen Hmax. apply Z.leb_le in Hmax.
  unfold process_image, process_image_body, with_, bind, call, lift, ret,
    try_except.
  rewrite Hopen. destruct (size img) as [width height].
  cbn [fst snd] in *. rewrite Hmax.
  unfold close_image. cbn [fst snd outcome_of].
  rewrite <- app_assoc. split; reflexivity.
Qed.

(** C8: a successful transform writes the output image and deletes the
    original only behind its guard.  When [process_image] returns
    [(True, message)]:
    - the image that is written is the opened image resized with LANCZOS
      to the new dimensions, converted to RGB unless its mode is RGBA, LA,
      P or RGB; it is written once, as lossy WebP of quality 85 with the
      EXIF data of the original when there is some, at the path of the
      original with its suffix replaced by [.webp] (same directory, same
      stem);
    - before that write the calls only read; after it the original is
      deleted exactly when the output path differs from the original path
      and [exists()] on the output path has just returned true; then the
      image is closed;
    - the world the call leaves is the world these calls leave, one after
      the other: what the write and the deletion did to it is kept. *)
Theorem process_image_writes_webp_then_deletes
    (file_path : Path) (s : @St W) (message : string) (s' : @St W) :
  process_image file_path s = (Return (true, message), s') ->
  exists output_path kw before after
         img exif new_size resized saved
         w_open w_info w_resized w_save w_saved w_end,
    snd s' = snd s ++ before ++ EvSave output_path kw (Return tt)
                                :: after ++ [EvClose file_path]
    /\ with_suffix file_path ".webp" = Return output_path
    /\ output_path = mkPath (parent file_path) (stem file_path ++ ".webp")
    /\ forallb reads_only before = true
    /\ Image_open file_path (fst s) = (Return img, w_open)
    /\ MAX_DIMENSION < Z.max (fst (size img)) (snd (size img))
    /\ (exists r,
          Image_info_get img "exif" w_open = (r, w_info)
          /\ exif = match r with Return data => data | Raise _ => None end)
    /\ new_dimensions (fst (size img)) (snd (size img)) = Return new_size
    /\ Image_resize img new_size "LANCZOS" w_info = (Return resized, w_resized)
    /\ (if existsb (String.eqb (mode resized)) ["RGBA"; "LA"; "P"]%string
           || String.eqb (mode resized) "RGB"
        then saved = resized /\ w_save = w_resized
        else Image_convert resized "RGB" w_resized = (Return saved, w_save))
    /\ kw = mkSaveKwargs "WEBP" false 85 (if truthy exif then exif else None)
    /\ Image_save saved output_path kw w_save = (Return tt, w_saved)
    /\ ((output_path = file_path /\ after = [] /\ w_end = w_saved)
        \/ (output_path <> file_path
            /\ after = [EvExists output_path (Return false)]
            /\ Path_exists output_path w_saved = (Return false, w_end))
        \/ (output_path <> file_path
            /\ after = [EvExists output_path (Return true);
                        EvUnlink file_path (Return tt)]
            /\ exists w_found,
                 Path_exists output_path w_saved = (Return true, w_found)
                 /\ Path_unlink file_path w_found = (Return tt, w_end)))
    /\ fst s' = Image_close img w_end
    /\ message
       = resized_message (Z.max (fst (size img)) (snd (size img)))
           (Z.max (fst new_size) (snd new_size)) file_path.
Proof.
  destruct s as [w tr]. intros Hrun.
  unfold process_image, process_image_body, with_, bind, call, lift, ret,
    try_except in Hrun.
  cbn [fst snd] in Hrun.
  destruct (Image_open file_path w) as [[img|e] w1] eqn:Hopen;
    [|discriminate].
  destruct (size img) as [width height] eqn:Hsize.
  destruct (Z.max width height <=? MAX_DIMENSION) eqn:Hmax; [discriminate|].
  cbn [fst snd] in Hrun.
  repeat run_step Hrun.
  all: unfold close_image in Hrun; cbn [fst snd] in Hrun;
    rewrite <- !app_assoc in Hrun; cbn [app] in Hrun.
  all: pose proof (with_suffix_Return _ _ _ Hout) as Hname.
  all: first [apply Path_eqb_eq in Hsame | apply Path_eqb_neq in Hsame].
  all: apply Z.leb_gt in Hmax.
  all: lazymatch type of Hrun with
       | (_, (_, _ ++ ?l)) = _ =>
           let b := events_before_save l in
           let a := events_after_save l in
           injection Hrun as <- <-; exists output_path; eexists _, b, a, img
       end.
  all: do 10 eexists.
  all: rewrite ?Hsize; cbn [fst snd].
  all: (split; [cbn [app]; reflexivity|]).
  all: (split; [first [exact Hout | reflexivity]|]).
  all: (split; [exact Hname|]).
  all: (split; [reflexivity|]).
  all: (split; [first [exact Hopen | reflexivity]|]).
  all: (split; [exact Hmax|]).
  all: (split; [eexists; split; [exact Hinfo | reflexivity]|]).
  all: (split; [exact Hdims|]).
  all: (split; [exact Hresize|]).
  all: (split;
        [first [ rewrite Hmode; cbn [orb]; split; reflexivity
               | rewrite Hmode, Hrgb; cbn [orb]; split; reflexivity
               | rewrite Hmode, Hrgb; cbn [orb]; exact Hconvert ]|]).
  all: (split; [reflexivity|]).
  all: (split; [exact Hsave|]).
  all: (split;
        [first [ left; split; [exact Hsame | split; reflexivity]
               | right; left;
                 split; [exact Hsame | split; [reflexivity | exact Hexists]]
               | right; right;
                 split; [exact Hsame
                        | split; [reflexivity
                                 | eexists; split; [exact Hexists
                                                   | exact Hunlink]]] ]|]).
  all: split; reflexivity.
Qed.

End WithCodec.

End ImageProcessorFacts.

(** ** [ProcessingThread]: the pool and the collecting loop *)

Module ProcessingThreadFacts.
Import ImageProcessor ProcessingThread Observer ImageProcessorFacts.

Lemma insert_completed_perm (ctime : nat -> nat) (f : Future) (fs : list Future) :
  Permutation (insert_completed ctime f fs) (f :: fs).
Proof.
  induction fs as [|g fs IH]; simpl; [reflexivity|].
  destruct (Nat.leb (ctime (future_id f)) (ctime (future_id g))).
  - reflexivity.
  - rewrite IH. apply perm_swap.
Qed.

(** [as_completed] gives every future once, whatever the completion times. *)
Lemma as_completed_perm (ctime : nat -> nat) (fs : list Future) :
  Permutation (as_completed ctime fs) fs.
Proof.
  induction fs as [|f fs IH]; simpl; [reflexivity|].
  rewrite insert_completed_perm. now constructor.
Qed.

Lemma as_completed_length (ctime : nat -> nat) (fs : list Future) :
  List.length (as_completed ctime fs) = List.length fs.
Proof. apply Permutation_length, as_completed_perm. Qed.

Lemma submit_from_ids (images : list Path) :
  forall i, map future_id (map fst (submit_from i images))
            = seq i (List.length images).
Proof.
  induction images as [|img images IH]; intros i; simpl; [reflexivity|].
  now rewrite IH.
Qed.

Lemma submit_from_tasks (images : list Path) :
  forall i, map task (map fst (submit_from i images)) = images.
Proof.
  induction images as [|img images IH]; intros i; simpl; [reflexivity|].
  now rewrite IH.
Qed.

Lemma future_to_image_values (images : list Path) :
  map snd (future_to_image images) = images.
Proof.
  unfold future_to_image. generalize 0%nat.
  induction images as [|img images IH]; intros i; simpl; [reflexivity|].
  now rewrite IH.
Qed.

(** The futures of one run are pairwise distinct. *)
Lemma futures_NoDup (images : list Path) :
  NoDup (map fst (future_to_image images)).
Proof.
  apply (NoDup_map_inv future_id).
  unfold future_to_image. rewrite submit_from_ids. apply seq_NoDup.
Qed.

Lemma futures_length (images : list Path) :
  List.length (map fst (future_to_image images)) = List.length images.
Proof.
  rewrite <- (length_map future_id). unfold future_to_image.
  rewrite submit_from_ids. apply length_seq.
Qed.

(** *** The counters *)

Lemma tally_processed (c : counters) (r : result (bool * string)) :
  processed_count (tally c r) = processed_count c + 1.
Proof. destruct r as [[[|] m]|e]; reflexivity. Qed.

Lemma tally_all_processed (rs : list (result (bool * string))) :
  forall c, processed_count (tally_all rs c)
            = processed_count c + Z.of_nat (List.length rs).
Proof.
  induction rs as [|r rs IH]; intros c; simpl.
  - lia.
  - unfold tally_all in *. simpl. rewrite IH, tally_processed. lia.
Qed.



(** *** Traces *)

Lemma progress_events_app (tr1 tr2 : list event) :
  progress_events (tr1 ++ tr2) = progress_events tr1 ++ progress_events tr2.
Proof.
  induction tr1 as [|ev tr1 IH]; [reflexivity|].
  destruct ev as [[]| |]; simpl; rewrite ?IH; reflexivity.
Qed.

Lemma finished_events_app (tr1 tr2 : list event) :
  finished_events (tr1 ++ tr2) = finished_events tr1 ++ finished_events tr2.
Proof.
  induction tr1 as [|ev tr1 IH]; [reflexivity|].
  destruct ev as [[]| |]; simpl; rewrite ?IH; reflexivity.
Qed.

Lemma submitted_app (tr1 tr2 : list event) :
  submitted (tr1 ++ tr2) = submitted tr1 ++ submitted tr2.
Proof.
  induction tr1 as [|ev tr1 IH]; [reflexivity|].
  destruct ev as [[]| |]; simpl; rewrite ?IH; reflexivity.
Qed.

Lemma progress_events_submit (images : list Path) :
  progress_events (map Submit images) = [].
Proof. induction images; simpl; auto. Qed.

Lemma finished_events_submit (images : list Path) :
  finished_events (map Submit images) = [].
Proof. induction images; simpl; auto. Qed.

Lemma submitted_submit (images : list Path) :
  submitted (map Submit images) = images.
Proof. induction images; simpl; congruence. Qed.

Lemma finished_events_iterations (total : Z) (rs : list (result (bool * string))) :
  forall c, finished_events (iterations total rs c) = [].
Proof. induction rs as [|r rs IH]; intros c; simpl; auto. Qed.

Lemma submitted_iterations (total : Z) (rs : list (result (bool * string))) :
  forall c, submitted (iterations total rs c) = [].
Proof. induction rs as [|r rs IH]; intros c; simpl; auto. Qed.

(** The progress events of the iterations count up by one from the
    counter they start at. *)
Lemma progress_events_iterations (total : Z) (rs : list (result (bool * string))) :
  forall c,
    progress_events (iterations total rs c)
    = map (fun i => (processed_count c + Z.of_nat i, total))
        (seq 1 (List.length rs)).
Proof.
  induction rs as [|r rs IH]; intros c; simpl; [reflexivity|].
  rewrite IH, tally_processed, <- (seq_shift (List.length rs) 1), map_map.
  f_equal. apply map_ext. intros i. f_equal. lia.
Qed.


Section WithCodec.
Context {W : Type} `{ImageCodec W}.

Lemma execute_length (fs : list Future) (s : @St W) :
  List.length (execute fs s) = List.length fs.
Proof.
  rewrite <- (length_map fst). now rewrite (proj1 (execute_all_return fs s)).
Qed.

(** The state the pool leaves after running the futures [fs]. *)
Lemma execute_firstn (fs : list Future) :
  forall (j : nat) (s : @St W),
    firstn j (execute fs s) = execute (firstn j fs) s.
Proof.
  induction fs as [|f fs IH]; intros [|j] s; simpl; try reflexivity.
  destruct (process_image (task f) s) as [r s']. simpl. now rewrite IH.
Qed.

(** The loop handles the results one by one until a check finds the flag
    set; it then shuts the pool down, says so and stops. *)
Lemma collect_spec (cancel_requested : nat -> bool) (total : Z)
    (completed : list (Future * result (bool * string))) :
  forall (k : nat) (self : t) (c : counters),
    let j := checks_passed cancel_requested k (is_cancelled self)
               (List.length completed) in
    collect cancel_requested k self total completed c
    = (iterations total (firstn j (map snd completed)) c
         ++ (if Nat.ltb j (List.length completed) then cancellation else []),
       tally_all (firstn j (map snd completed)) c).
Proof.
  induction completed as [|[f r] rest IH]; intros k self c; simpl.
  - reflexivity.
  - destruct (cancel_requested k); simpl; [reflexivity|].
    destruct (is_cancelled self) eqn:Hflag; simpl; [reflexivity|].
    rewrite IH, Hflag. reflexivity.
Qed.

Lemma checks_passed_le (cancel_requested : nat -> bool) (n : nat) :
  forall k cancelled,
    (checks_passed cancel_requested k cancelled n <= n)%nat.
Proof.
  induction n as [|n IH]; intros k cancelled; simpl; [lia|].
  destruct (cancel_requested k || cancelled); [lia|].
  specialize (IH (S k) false). lia.
Qed.

(** Without a call of [cancel] every check passes. *)
Lemma checks_passed_all (cancel_requested : nat -> bool) (n : nat) :
  (forall k, cancel_requested k = false) ->
  forall k, checks_passed cancel_requested k false n = n.
Proof.
  intros Hnever. induction n as [|n IH]; intros k; simpl; [reflexivity|].
  now rewrite Hnever, IH.
Qed.

(** A call of [cancel] between check [k0 + j - 1] and check [k0 + j], and
    none before, lets exactly [j] checks pass. *)
Lemma checks_passed_until (cancel_requested : nat -> bool) (j : nat) :
  forall k0 n,
    (j < n)%nat ->
    (forall i, (i < j)%nat -> cancel_requested (k0 + i)%nat = false) ->
    cancel_requested (k0 + j)%nat = true ->
    checks_passed cancel_requested k0 false n = j.
Proof.
  induction j as [|j IH]; intros k0 [|n] Hlt Hbefore Hat; try lia; simpl.
  - rewrite Nat.add_0_r in Hat. now rewrite Hat.
  - rewrite <- (Nat.add_0_r k0) at 1. rewrite (Hbefore 0%nat) by lia. simpl.
    f_equal. apply IH; [lia| |].
    + intros i Hi. replace (S k0 + i)%nat with (k0 + S i)%nat by lia.
      apply Hbefore. lia.
    + now replace (S k0 + j)%nat with (k0 + S j)%nat by lia.
Qed.

(** *** The four ways a run can go *)

Lemma run_discovery_fails (HEIC_SUPPORT : bool) (format_exc : PyException -> string)
    (cr : nat -> bool) (ct : nat -> nat) (self : t) (s s1 : @St W)
    (e : PyException) :
  find_images HEIC_SUPPORT (folder_path self) s = (Raise e, s1) ->
  run HEIC_SUPPORT format_exc cr ct self s
  = Emit (log_message (scanning_message self)) :: fatal format_exc e.
Proof. intros Hfind. unfold run. now rewrite Hfind. Qed.

Lemma run_no_images (HEIC_SUPPORT : bool) (format_exc : PyException -> string)
    (cr : nat -> bool) (ct : nat -> nat) (self : t) (s s1 : @St W) :
  find_images HEIC_SUPPORT (folder_path self) s = (Return [], s1) ->
  run HEIC_SUPPORT format_exc cr ct self s
  = [Emit (log_message (scanning_message self));
     Emit (log_message "No supported images found.");
     Emit (finished 0 0 0)].
Proof. intros Hfind. unfold run. now rewrite Hfind. Qed.

Lemma run_pool_refused (HEIC_SUPPORT : bool) (format_exc : PyException -> string)
    (cr : nat -> bool) (ct : nat -> nat) (self : t) (s s1 : @St W)
    (images : list Path) :
  find_images HEIC_SUPPORT (folder_path self) s = (Return images, s1) ->
  images <> [] ->
  max_workers self <= 0 ->
  run HEIC_SUPPORT format_exc cr ct self s
  = preamble self (Z.of_nat (List.length images))
      ++ fatal format_exc (mkException "max_workers must be greater than 0").
Proof.
  intros Hfind Hsome Hworkers. unfold run. rewrite Hfind.
  destruct images as [|img images]; [congruence|].
  replace (Z.of_nat (List.length (img :: images)) =? 0) with false
    by (symmetry; apply Z.eqb_neq; simpl List.length; lia).
  apply Z.leb_le in Hworkers. now rewrite Hworkers.
Qed.

Lemma run_collecting (HEIC_SUPPORT : bool) (format_exc : PyException -> string)
    (cr : nat -> bool) (ct : nat -> nat) (self : t) (s s1 : @St W)
    (images : list Path) :
  find_images HEIC_SUPPORT (folder_path self) s = (Return images, s1) ->
  images <> [] ->
  0 < max_workers self ->
  let total := Z.of_nat (List.length images) in
  let rs := map snd (execute (as_completed ct (map fst (future_to_image images))) s1) in
  let j := checks_passed cr 0 (is_cancelled self) (List.length images) in
  run HEIC_SUPPORT format_exc cr ct self s
  = preamble self total
      ++ map Submit images
      ++ (iterations total (firstn j rs) no_counts
            ++ (if Nat.ltb j (List.length images) then cancellation else []))
      ++ [Shutdown true false; summary (tally_all (firstn j rs) no_counts)].
Proof.
  intros Hfind Hsome Hworkers. unfold run. rewrite Hfind.
  destruct images as [|img images]; [congruence|].
  replace (Z.of_nat (List.length (img :: images)) =? 0) with false
    by (symmetry; apply Z.eqb_neq; simpl List.length; lia).
  replace (max_workers self <=? 0) with false
    by (symmetry; apply Z.leb_gt; exact Hworkers).
  rewrite collect_spec, execute_length, as_completed_length, futures_length.
  reflexivity.
Qed.

(** *** Zero files, the terminal event, cancellation *)

(** C7: when discovery finds no file, the run is the scan line, the line
    "No supported images found." and [finished(0, 0, 0)], at once: nothing
    is handed to the pool and no progress event is emitted. *)
Theorem run_without_images (HEIC_SUPPORT : bool)
    (format_exc : PyException -> string) (cr : nat -> bool) (ct : nat -> nat)
    (self : t) (s s1 : @St W) :
  find_images HEIC_SUPPORT (folder_path self) s = (Return [], s1) ->
  let tr := run HEIC_SUPPORT format_exc cr ct self s in
  tr = [Emit (log_message (scanning_message self));
        Emit (log_message "No supported images found.");
        Emit (finished 0 0 0)]
  /\ submitted tr = []
  /\ progress_events tr = []
  /\ finished_events tr = [(0, 0, 0)].
Proof.
  intros Hfind tr. subst tr. rewrite (run_no_images _ _ _ _ _ _ _ Hfind).
  repeat split.
Qed.

(** C4: every run emits [finished] exactly once, as its last event:
    whether discovery fails, finds nothing, the pool cannot be created,
    the loop is cancelled or all results are collected. *)
Theorem run_emits_finished_once (HEIC_SUPPORT : bool)
    (format_exc : PyException -> string) (cr : nat -> bool) (ct : nat -> nat)
    (self : t) (s : @St W) :
  exists tr p r k,
    run HEIC_SUPPORT format_exc cr ct self s = tr ++ [Emit (finished p r k)]
    /\ finished_events tr = []
    /\ finished_events (run HEIC_SUPPORT format_exc cr ct self s) = [(p, r, k)].
Proof.
  assert (Hlast : forall tr p r k,
             finished_events tr = [] ->
             finished_events (tr ++ [Emit (finished p r k)]) = [(p, r, k)]).
  { intros tr p r k Hnone. now rewrite finished_events_app, Hnone. }
  destruct (find_images HEIC_SUPPORT (folder_path self) s)
    as [[images|e] s1] eqn:Hfind.
  - destruct images as [|img images].
    + rewrite (run_no_images _ _ _ _ _ _ _ Hfind).
      exists [Emit (log_message (scanning_message self));
              Emit (log_message "No supported images found.")], 0, 0, 0.
      repeat split.
    + destruct (Z.leb_spec (max_workers self) 0) as [Hworkers|Hworkers].
      * rewrite (run_pool_refused _ format_exc cr ct _ _ _ _ Hfind)
          by (congruence || assumption).
        eexists (preamble self _ ++ [_; _]), 0, 0, 0.
        repeat split.
      * rewrite (run_collecting _ format_exc cr ct _ _ _ _ Hfind)
          by (congruence || assumption).
        set (total := Z.of_nat (List.length (img :: images))).
        set (rs := map snd (execute _ s1)).
        set (j := checks_passed _ _ _ _).
        set (c := tally_all (firstn j rs) no_counts).
        exists (preamble self total ++ map Submit (img :: images)
                  ++ (iterations total (firstn j rs) no_counts
                        ++ (if Nat.ltb j (List.length (img :: images))
                            then cancellation else []))
                  ++ [Shutdown true false]),
          (processed_count c), (total_resized c), (total_skipped c).
        assert (Hnone : finished_events
                  (preamble self total ++ map Submit (img :: images)
                     ++ (iterations total (firstn j rs) no_counts
                           ++ (if Nat.ltb j (List.length (img :: images))
                               then cancellation else []))
                     ++ [Shutdown true false]) = []).
        { rewrite !finished_events_app, finished_events_submit,
            finished_events_iterations.
          destruct (Nat.ltb j _); reflexivity. }
        assert (Hshape :
                  preamble self total ++ map Submit (img :: images)
                    ++ (iterations total (firstn j rs) no_counts
                          ++ (if Nat.ltb j (List.length (img :: images))
                              then cancellation else []))
                    ++ [Shutdown true false; summary c]
                  = (preamble self total ++ map Submit (img :: images)
                       ++ (iterations total (firstn j rs) no_counts
                             ++ (if Nat.ltb j (List.length (img :: images))
                                 then cancellation else []))
                       ++ [Shutdown true false])
                      ++ [Emit (finished (processed_count c) (total_resized c)
                                  (total_skipped c))]).
        { rewrite <- !app_assoc. reflexivity. }
        rewrite Hshape. split; [reflexivity|]. split; [exact Hnone|].
        apply Hlast, Hnone.
  - rewrite (run_discovery_fails _ format_exc cr ct _ _ _ _ Hfind).
    eexists [_; _; _], 0, 0, 0. repeat split.
Qed.

(** C2: when [cancel] is called after [k] results have been collected
    ([k] smaller than the number [N] of files, no call before), the check
    before result [k + 1] finds the flag set: the loop handles no further
    result, shuts the pool down asking it to cancel what has not started,
    logs "Processing cancelled.", and the run still ends with [finished],
    whose counters are those of the first [k] results; its first counter
    is [k], below [N]. *)
Theorem cancellation_stops_collecting (HEIC_SUPPORT : bool)
    (format_exc : PyException -> string) (cr : nat -> bool) (ct : nat -> nat)
    (self : t) (s s1 : @St W) (images : list Path) (k : nat) :
  find_images HEIC_SUPPORT (folder_path self) s = (Return images, s1) ->
  0 < max_workers self ->
  is_cancelled self = false ->
  (k < List.length images)%nat ->
  (forall i, (i < k)%nat -> cr i = false) ->
  cr k = true ->
  let total := Z.of_nat (List.length images) in
  let rs := map snd (execute (as_completed ct (map fst (future_to_image images))) s1) in
  let c := tally_all (firstn k rs) no_counts in
  run HEIC_SUPPORT format_exc cr ct self s
  = preamble self total
      ++ map Submit images
      ++ iterations total (firstn k rs) no_counts
      ++ [Shutdown false true;
          Emit (log_message "Processing cancelled.");
          Shutdown true false;
          Emit (finished (Z.of_nat k) (total_resized c) (total_skipped c))]
  /\ Z.of_nat k < total
  /\ List.length (progress_events (run HEIC_SUPPORT format_exc cr ct self s)) = k.
Proof.
  intros Hfind Hworkers Hflag Hk Hbefore Hat total rs c.
  assert (Hsome : images <> []) by (destruct images; simpl in Hk; [lia|congruence]).
  assert (Hrs : List.length rs = List.length images).
  { subst rs. now rewrite length_map, execute_length, as_completed_length,
      futures_length. }
  assert (Hrun := run_collecting _ format_exc cr ct _ _ _ _ Hfind Hsome Hworkers).
  cbv zeta in Hrun. rewrite Hflag in Hrun.
  rewrite (checks_passed_until cr k 0 (List.length images) Hk Hbefore Hat) in Hrun.
  apply Nat.ltb_lt in Hk. rewrite Hk in Hrun. apply Nat.ltb_lt in Hk.
  fold rs total in Hrun. fold c in Hrun.
  assert (Hprocessed : processed_count c = Z.of_nat k).
  { subst c. rewrite tally_all_processed, length_firstn. simpl. lia. }
  split; [|split].
  - rewrite Hrun. unfold summary, cancellation. rewrite Hprocessed.
    rewrite <- !app_assoc. reflexivity.
  - subst total. lia.
  - rewrite Hrun, !progress_events_app, progress_events_submit,
      progress_events_iterations.
    simpl. rewrite !length_app, length_map, length_seq, length_firstn. simpl. lia.
Qed.

(** *** Progress events *)

Lemma of_nat_seq_sorted (n : nat) :
  forall a, StronglySorted Z.lt (map Z.of_nat (seq a n)).
Proof.
  induction n as [|n IH]; intros a; simpl; constructor.
  - apply IH.
  - apply Forall_forall. intros x Hx.
    apply in_map_iff in Hx. destruct Hx as [i [<- Hi]].
    apply in_seq in Hi. lia.
Qed.

(** The progress events of a run count 1, 2, ..., each with the number of
    discovered files, and stop at a count [j] that is the number of files
    unless the run is cancelled or the pool cannot be created. *)
Lemma run_progress_events (HEIC_SUPPORT : bool)
    (format_exc : PyException -> string) (cr : nat -> bool) (ct : nat -> nat)
    (self : t) (s s1 : @St W) (images : list Path) :
  find_images HEIC_SUPPORT (folder_path self) s = (Return images, s1) ->
  exists j,
    (j <= List.length images)%nat
    /\ progress_events (run HEIC_SUPPORT format_exc cr ct self s)
       = map (fun i => (Z.of_nat i, Z.of_nat (List.length images))) (seq 1 j)
    /\ (never_cancelled cr self -> 0 < max_workers self ->
        j = List.length images).
Proof.
  intros Hfind. destruct images as [|img images].
  - exists 0%nat. rewrite (run_no_images _ _ _ _ _ _ _ Hfind).
    repeat split; auto.
  - destruct (Z.leb_spec (max_workers self) 0) as [Hworkers|Hworkers].
    + exists 0%nat.
      rewrite (run_pool_refused _ format_exc cr ct _ _ _ _ Hfind)
        by (congruence || assumption).
      repeat split; [lia | lia].
    + rewrite (run_collecting _ format_exc cr ct _ _ _ _ Hfind)
        by (congruence || assumption).
      set (rs := map snd (execute _ s1)).
      assert (Hrs : List.length rs = List.length (img :: images)).
      { subst rs. now rewrite length_map, execute_length, as_completed_length,
          futures_length. }
      set (j := checks_passed cr 0 (is_cancelled self) (List.length (img :: images))).
      assert (Hj : (j <= List.length (img :: images))%nat)
        by apply checks_passed_le.
      exists j. split; [exact Hj|]. split.
      * rewrite !progress_events_app, progress_events_submit,
          progress_events_iterations, length_firstn, Hrs, Nat.min_l by exact Hj.
        destruct (Nat.ltb j _); simpl; rewrite ?app_nil_r; reflexivity.
      * intros [Hflag Hnever] _. subst j. rewrite Hflag.
        apply checks_passed_all, Hnever.
Qed.

(** C3: with [N] files discovered, every progress event carries a count
    between 0 and [N] and the total [N], and the counts strictly increase
    along the run.  When [cancel] is never called and the pool can be
    created, the counts are exactly 1, 2, ..., [N]; the loop then handles
    the futures in an order that holds each of them once, one result and
    one log line for each, and [finished] reports [N] results. *)
Theorem progress_counts_up (HEIC_SUPPORT : bool)
    (format_exc : PyException -> string) (cr : nat -> bool) (ct : nat -> nat)
    (self : t) (s s1 : @St W) (images : list Path) :
  find_images HEIC_SUPPORT (folder_path self) s = (Return images, s1) ->
  let total := Z.of_nat (List.length images) in
  let tr := run HEIC_SUPPORT format_exc cr ct self s in
  Forall (fun ev => 0 <= fst ev <= snd ev /\ snd ev = total) (progress_events tr)
  /\ StronglySorted Z.lt (map fst (progress_events tr))
  /\ (never_cancelled cr self -> 0 < max_workers self ->
      map fst (progress_events tr) = map Z.of_nat (seq 1 (List.length images))
      /\ (images <> [] ->
          exists order,
            Permutation order (map fst (future_to_image images))
            /\ NoDup order
            /\ List.length (execute order s1) = List.length images
            /\ tr = preamble self total
                      ++ map Submit images
                      ++ iterations total (map snd (execute order s1)) no_counts
                      ++ [Shutdown true false;
                          summary (tally_all (map snd (execute order s1))
                                     no_counts)]
            /\ processed_count (tally_all (map snd (execute order s1)) no_counts)
               = total)).
Proof.
  intros Hfind total tr.
  destruct (run_progress_events _ format_exc cr ct _ _ _ _ Hfind)
    as [j [Hj [Hprogress Hall]]].
  fold tr in Hprogress. fold total in Hprogress.
  split; [|split].
  - rewrite Hprogress. apply Forall_forall. intros ev Hev.
    apply in_map_iff in Hev. destruct Hev as [i [<- Hi]].
    apply in_seq in Hi. simpl. subst total. lia.
  - rewrite Hprogress, map_map. simpl. apply of_nat_seq_sorted.
  - intros Hnever Hworkers. split.
    + rewrite Hprogress, map_map, (Hall Hnever Hworkers). reflexivity.
    + intros Hsome.
      exists (as_completed ct (map fst (future_to_image images))).
      assert (Hlen : List.length
                       (execute (as_completed ct (map fst (future_to_image images))) s1)
                     = List.length images)
        by now rewrite execute_length, as_completed_length, futures_length.
      split; [apply as_completed_perm|].
      split; [eapply Permutation_NoDup;
              [symmetry; apply as_completed_perm | apply futures_NoDup]|].
      split; [exact Hlen|].
      assert (Hrun := run_collecting _ format_exc cr ct _ _ _ _ Hfind Hsome Hworkers).
      cbv zeta in Hrun. destruct Hnever as [Hflag Hnever].
      rewrite Hflag, (checks_passed_all cr _ Hnever), Nat.ltb_irrefl in Hrun.
      rewrite firstn_all2 in Hrun by (rewrite length_map, Hlen; lia).
      rewrite app_nil_r in Hrun. split; [exact Hrun|].
      rewrite tally_all_processed, length_map, Hlen. reflexivity.
Qed.

(** *** Counters and outcomes *)

Lemma count_outcome_cons (o o' : outcome) (os : list outcome) :
  count_outcome o (o' :: os)
  = (if outcome_eqb o o' then 1 else 0) + count_outcome o os.
Proof.
  unfold count_outcome. simpl. destruct (outcome_eqb o o'); simpl List.length; lia.
Qed.

Lemma execute_outcomes_length (fs : list Future) :
  forall s : @St W, List.length (execute_outcomes fs s) = List.length fs.
Proof. induction fs as [|f fs IH]; intros s; simpl; auto. Qed.

Lemma count_outcome_total (os : list outcome) :
  count_outcome Transformed os + count_outcome Skipped os
    + count_outcome Failed os
  = Z.of_nat (List.length os).
Proof.
  induction os as [|o os IH]; [reflexivity|].
  rewrite !count_outcome_cons. cbn [List.length]. rewrite Nat2Z.inj_succ.
  destruct o; cbn [outcome_eqb]; lia.
Qed.


(** After the results of the futures [fs]: one count per future, the
    transformed ones in [total_resized], the skipped and the failed ones
    together in [total_skipped]. *)
Lemma tally_all_execute (fs : list Future) :
  forall (s : @St W) (c : counters),
    tally_all (map snd (execute fs s)) c
    = mkCounters
        (processed_count c + Z.of_nat (List.length fs))
        (total_resized c + count_outcome Transformed (execute_outcomes fs s))
        (total_skipped c + count_outcome Skipped (execute_outcomes fs s)
           + count_outcome Failed (execute_outcomes fs s)).
Proof.
  induction fs as [|f fs IH]; intros s c.
  - destruct c. unfold tally_all, count_outcome. simpl. f_equal; lia.
  - simpl execute. simpl execute_outcomes. rewrite process_image_unfold.
    destruct (process_image_body (task f) s) as [[[[|] m]|e] s'];
      unfold tally_all in *; cbn [map snd fst fold_left outcome_of];
      rewrite IH, !count_outcome_cons;
      cbn [tally processed_count total_resized total_skipped outcome_eqb
             List.length];
      rewrite Nat2Z.inj_succ; f_equal; lia.
Qed.


(** C9, amended: ten files, one of which fails, no cancellation: all ten
    are handed to the pool and collected (progress goes 1 to 10), and
    [finished] reports 10 results, the transformed ones, and as skipped
    the skipped ones plus the one that failed; the nine others are
    transformed or skipped. *)
Theorem failed_file_counted_as_skipped (HEIC_SUPPORT : bool)
    (format_exc : PyException -> string) (cr : nat -> bool) (ct : nat -> nat)
    (self : t) (s s1 : @St W) (images : list Path) :
  find_images HEIC_SUPPORT (folder_path self) s = (Return images, s1) ->
  List.length images = 10%nat ->
  never_cancelled cr self ->
  0 < max_workers self ->
  count_outcome Failed (pool_outcomes HEIC_SUPPORT ct self s) = 1 ->
  let os := pool_outcomes HEIC_SUPPORT ct self s in
  let tr := run HEIC_SUPPORT format_exc cr ct self s in
  finished_events tr
  = [(10, count_outcome Transformed os, count_outcome Skipped os + 1)]
  /\ map fst (progress_events tr) = [1; 2; 3; 4; 5; 6; 7; 8; 9; 10]
  /\ submitted tr = images
  /\ count_outcome Transformed os + count_outcome Skipped os = 9.
Proof.
  intros Hfind Hten Hnever Hworkers Hfailed os tr.
  assert (Hsome : images <> []) by (destruct images; [discriminate|congruence]).
  destruct (run_progress_events _ format_exc cr ct _ _ _ _ Hfind)
    as [j [_ [Hprogress Hall]]].
  rewrite (Hall Hnever Hworkers) in Hprogress. clear j Hall.
  assert (Hrun := run_collecting _ format_exc cr ct _ _ _ _ Hfind Hsome Hworkers).
  cbv zeta in Hrun. destruct Hnever as [Hflag Hnever].
  rewrite Hflag, (checks_passed_all cr _ Hnever), Nat.ltb_irrefl in Hrun.
  rewrite firstn_all2 in Hrun
    by (rewrite length_map, execute_length, as_completed_length,
          futures_length; lia).
  rewrite tally_all_execute in Hrun.
  assert (Hos : os = execute_outcomes
                       (as_completed ct (map fst (future_to_image images))) s1).
  { subst os. unfold pool_outcomes, completion_order, discovered.
    now rewrite Hfind. }
  rewrite <- Hos in Hrun. subst os. rewrite Hfailed in Hrun.
  assert (Htotal := count_outcome_total (pool_outcomes HEIC_SUPPORT ct self s)).
  rewrite Hos in Htotal at 4.
  rewrite execute_outcomes_length, as_completed_length, futures_length, Hten,
    Hfailed in Htotal.
  split; [|split; [|split]].
  - subst tr. rewrite Hrun, !finished_events_app, finished_events_submit,
      finished_events_iterations.
    rewrite as_completed_length, futures_length, Hten. reflexivity.
  - fold tr in Hprogress. rewrite Hprogress, Hten. reflexivity.
  - subst tr. rewrite Hrun, !submitted_app, submitted_submit,
      submitted_iterations. simpl. now rewrite app_nil_r.
  - lia.
Qed.

End WithCodec.

End ProcessingThreadFacts.

(** ** The new dimensions *)

Module ResizeFacts.
Import ImageProcessor.

(** The side along the larger original side becomes exactly 3840. *)
Lemma new_dimensions_larger_side (width height : Z) :
  match new_dimensions width height with
  | Return (new_width, new_height) =>
      if width >? height then new_width = MAX_DIMENSION
      else new_height = MAX_DIMENSION
  | Raise _ => True
  end.
Proof.
  unfold new_dimensions. destruct (width >? height).
  - destruct (scaled height width); auto.
  - destruct (scaled width height); auto.
Qed.

(** A 7680 x 4320 image becomes 3840 x 2160, as the exact quotient says. *)
Lemma new_dimensions_7680_4320 :
  new_dimensions 7680 4320 = Return (3840, 2160)
  /\ truncated_scale 4320 7680 = 2160.
Proof. split; vm_compute; reflexivity. Qed.

(** C6 does not hold of a 4000 x 2050 image.  The exact scaled height is
    [2050 * 3840 / 4000 = 1968], a whole number; [2050 / 4000] is rounded
    down to a binary64 number, its product by 3840 is rounded just below
    1968, and [int] truncates it to 1967. *)
Theorem new_dimensions_4000_2050 :
  new_dimensions 4000 2050 = Return (3840, 1967)
  /\ truncated_scale 2050 4000 = 1968
  /\ 2050 * MAX_DIMENSION = 1968 * 4000
  /\ PyFloat.truediv 2050 4000
     = Return (S754_finite false 4616189618054758 (-53))
  /\ PyFloat.mul_int (S754_finite false 4616189618054758 (-53)) MAX_DIMENSION
     = S754_finite false 8655355533852671 (-42).
Proof. repeat split; vm_compute; reflexivity. Qed.

End ResizeFacts.

(** ** Deletion is guarded in every call *)

Ltac events_after_unlink l :=
  lazymatch l with
  | EvUnlink _ _ :: ?l' => constr:(l')
  | _ :: ?l' => events_after_unlink l'
  end.

Module DeletionFacts.
Import ImageProcessor PathFacts ImageProcessorFacts.

Section WithCodec.
Context {W : Type} `{ImageCodec W}.

(** Whatever [process_image] returns, it calls [unlink] only on the
    original file, only when the output path differs from it, and only
    right after a write to the output path that returned and an
    [exists()] on the output path that returned true. *)
Lemma unlink_is_guarded (file_path : Path) (s : @St W) :
  exists evs,
    snd (snd (process_image file_path s)) = snd s ++ evs
    /\ forall p r,
         In (EvUnlink p r) evs ->
         p = file_path
         /\ exists output_path kw before after,
              with_suffix file_path ".webp" = Return output_path
              /\ output_path <> file_path
              /\ evs = before
                         ++ EvSave output_path kw (Return tt)
                         :: EvExists output_path (Return true)
                         :: EvUnlink file_path r :: after.
Proof.
  destruct s as [w tr].
  remember (process_image file_path (w, tr)) as res eqn:Hrun.
  unfold process_image, process_image_body, with_, bind, call, lift, ret,
    try_except in Hrun.
  cbn [fst snd] in Hrun.
  destruct (Image_open file_path w) as [[img|e] w1] eqn:Hopen.
  2: { subst res. eexists. split; [reflexivity|].
       intros p r [Hin|[]]. discriminate Hin. }
  destruct (size img) as [width height].
  destruct (Z.max width height <=? MAX_DIMENSION) eqn:Hmax;
    cbn [fst snd] in Hrun.
  { subst res. unfold close_image. cbn [fst snd]. rewrite <- app_assoc.
    eexists. split; [reflexivity|].
    intros p r [Hin|[Hin|[]]]; discriminate Hin. }
  repeat run_step Hrun.
  all: subst res; unfold close_image; cbn [fst snd];
    rewrite <- !app_assoc; cbn [app].
  all: eexists; (split; [reflexivity|]).
  all: intros p r Hin; cbn [In] in Hin.
  all: repeat (destruct Hin as [Hin|Hin]; [try discriminate Hin|]);
    try contradiction.
  all: injection Hin as <- <-.
  all: apply Path_eqb_neq in Hsame.
  all: (split; [reflexivity|]).
  all: lazymatch goal with
       | |- context [EvSave ?o ?k (Return tt) :: ?l] =>
           lazymatch goal with
           | |- exists _ _ _ _, _ /\ _ /\ ?evs = _ =>
               let b := events_before_save evs in
               let a := events_after_unlink evs in
               exists o, k, b, a
           end
       end.
  all: repeat split; auto.
Qed.

End WithCodec.

End DeletionFacts.

(** ** The theorems at work in the small world *)

Module Witnesses.
Import ImageProcessor ProcessingThread Observer Scenario.
Import ImageProcessorFacts ProcessingThreadFacts.

(** An image of 3840 x 2160, right at the limit, is skipped and the world
    is only read. *)
Lemma process_image_skips_within_limit_witness :
  Image_open (Sim.photo "edge.jpg") Sim.three_files
  = (Return (mkImage (3840, 2160) "RGB"), Sim.three_files)
  /\ Z.max 3840 2160 <= MAX_DIMENSION
  /\ process_image (Sim.photo "edge.jpg") (Sim.three_files, [])
     = (Return (false, "Skipped (already 3840px): edge.jpg"%string),
        (Sim.three_files,
         [EvOpen (Sim.photo "edge.jpg") (Return (mkImage (3840, 2160) "RGB"));
          EvClose (Sim.photo "edge.jpg")])).
Proof.
  assert (Hopen : Image_open (Sim.photo "edge.jpg") Sim.three_files
                  = (Return (mkImage (3840, 2160) "RGB"), Sim.three_files))
    by reflexivity.
  assert (Hmax : Z.max 3840 2160 <= MAX_DIMENSION)
    by (vm_compute; discriminate).
  split; [exact Hopen|]. split; [exact Hmax|].
  exact (proj1 (process_image_skips_within_limit (Sim.photo "edge.jpg")
                  (Sim.three_files, [])
                  (mkImage (3840, 2160) "RGB") Sim.three_files Hopen Hmax)).
Defined.

(** A 7680 x 4320 PNG is written as [big.webp], a 3840 x 2160 image, and
    [big.png] is deleted after [exists()] has confirmed the new file: the
    folder then holds [big.webp] and no [big.png]. *)
Lemma process_image_writes_webp_then_deletes_witness :
  process_image (Sim.photo "big.png") (Sim.three_files, [])
  = (Return (true, resized_message 7680 3840 (Sim.photo "big.png")),
     snd (process_image (Sim.photo "big.png") (Sim.three_files, [])))
  /\ fst (snd (process_image (Sim.photo "big.png") (Sim.three_files, [])))
     = [(Sim.photo "big.webp", Sim.ImageFile 3840 2160);
        (Sim.photo "edge.jpg", Sim.ImageFile 3840 2160);
        (Sim.photo "bad.bmp", Sim.Garbage)]
  /\ exists output_path kw before after
            img exif new_size resized saved
            w_open w_info w_resized w_save w_saved w_end,
       snd (snd (process_image (Sim.photo "big.png") (Sim.three_files, [])))
       = [] ++ before ++ EvSave output_path kw (Return tt)
                      :: after ++ [EvClose (Sim.photo "big.png")]
       /\ with_suffix (Sim.photo "big.png") ".webp" = Return output_path
       /\ output_path = Sim.photo "big.webp"
       /\ forallb reads_only before = true
       /\ Image_open (Sim.photo "big.png") Sim.three_files
          = (Return img, w_open)
       /\ MAX_DIMENSION < Z.max (fst (size img)) (snd (size img))
       /\ (exists r,
             Image_info_get img "exif" w_open = (r, w_info)
             /\ exif = match r with Return data => data | Raise _ => None end)
       /\ new_dimensions (fst (size img)) (snd (size img)) = Return new_size
       /\ Image_resize img new_size "LANCZOS" w_info
          = (Return resized, w_resized)
       /\ (if existsb (String.eqb (mode resized)) ["RGBA"; "LA"; "P"]%string
              || String.eqb (mode resized) "RGB"
           then saved = resized /\ w_save = w_resized
           else Image_convert resized "RGB" w_resized = (Return saved, w_save))
       /\ kw = mkSaveKwargs "WEBP" false 85
                 (if truthy exif then exif else None)
       /\ Image_save saved output_path kw w_save = (Return tt, w_saved)
       /\ ((output_path = Sim.photo "big.png" /\ after = []
            /\ w_end = w_saved)
           \/ (output_path <> Sim.photo "big.png"
               /\ after = [EvExists output_path (Return false)]
               /\ Path_exists output_path w_saved = (Return false, w_end))
           \/ (output_path <> Sim.photo "big.png"
               /\ after = [EvExists output_path (Return true);
                           EvUnlink (Sim.photo "big.png") (Return tt)]
               /\ exists w_found,
                    Path_exists output_path w_saved = (Return true, w_found)
                    /\ Path_unlink (Sim.photo "big.png") w_found
                       = (Return tt, w_end)))
       /\ fst (snd (process_image (Sim.photo "big.png") (Sim.three_files, [])))
          = Image_close img w_end
       /\ resized_message 7680 3840 (Sim.photo "big.png")
          = resized_message (Z.max (fst (size img)) (snd (size img)))
              (Z.max (fst new_size) (snd new_size)) (Sim.photo "big.png").
Proof.
  assert (Hrun : process_image (Sim.photo "big.png") (Sim.three_files, [])
                 = (Return (true, resized_message 7680 3840 (Sim.photo "big.png")),
                    snd (process_image (Sim.photo "big.png")
                           (Sim.three_files, []))))
    by (vm_compute; reflexivity).
  split; [exact Hrun|]. split; [vm_compute; reflexivity|].
  exact (process_image_writes_webp_then_deletes (Sim.photo "big.png")
           (Sim.three_files, []) _ _ Hrun).
Defined.

(** A folder with a text file and a WebP file holds nothing to do. *)
Lemma run_without_images_witness :
  find_images false (folder_path thread) (no_images, [])
  = (Return [], nothing_found)
  /\ run false Sim.format_exc never in_order thread (no_images, [])
     = [Emit (log_message "Scanning folder: /photos");
        Emit (log_message "No supported images found.");
        Emit (finished 0 0 0)].
Proof.
  assert (Hfind : find_images false (folder_path thread) (no_images, [])
                  = (Return [], nothing_found))
    by (vm_compute; reflexivity).
  split; [exact Hfind|].
  exact (proj1 (run_without_images false Sim.format_exc never in_order thread
                  (no_images, []) nothing_found Hfind)).
Defined.

Lemma never_is_never : never_cancelled never thread.
Proof. split; [reflexivity | intros k; reflexivity]. Qed.

(** Three files, [cancel] called after the first result: one result is
    reported, the two others are left. *)
Lemma cancellation_stops_collecting_witness :
  find_images false (folder_path thread) (Sim.three_files, [])
  = (Return (map fst Sim.three_files), three_found)
  /\ after_one 1 = true
  /\ run false Sim.format_exc after_one reversed thread (Sim.three_files, [])
     = [Emit (log_message "Scanning folder: /photos");
        Emit (log_message "Found 3 images. Starting processing...");
        Emit (log_message "Using 8 worker threads.");
        Submit (Sim.photo "big.png");
        Submit (Sim.photo "edge.jpg");
        Submit (Sim.photo "bad.bmp");
        Emit (log_message "Error processing bad.bmp: cannot identify image file");
        Emit (progress_update 1 3);
        Shutdown false true;
        Emit (log_message "Processing cancelled.");
        Shutdown true false;
        Emit (finished 1 0 1)].
Proof.
  assert (Hfind : find_images false (folder_path thread) (Sim.three_files, [])
                  = (Return (map fst Sim.three_files), three_found))
    by (vm_compute; reflexivity).
  assert (Hworkers : 0 < max_workers thread) by (vm_compute; reflexivity).
  assert (Hk : (1 < List.length (map fst Sim.three_files))%nat)
    by (simpl; lia).
  assert (Hbefore : forall i, (i < 1)%nat -> after_one i = false).
  { intros [|i] Hi; [reflexivity | lia]. }
  split; [exact Hfind|]. split; [reflexivity|].
  exact (proj1 (cancellation_stops_collecting false Sim.format_exc after_one
                  reversed thread (Sim.three_files, []) three_found
                  (map fst Sim.three_files) 1
                  Hfind Hworkers eq_refl Hk Hbefore eq_refl)).
Defined.

(** Three files and no cancellation: progress goes 1, 2, 3. *)
Lemma progress_counts_up_witness :
  find_images false (folder_path thread) (Sim.three_files, [])
  = (Return (map fst Sim.three_files), three_found)
  /\ progress_events
       (run false Sim.format_exc never reversed thread (Sim.three_files, []))
     = [(1, 3); (2, 3); (3, 3)]
  /\ map fst
       (progress_events
          (run false Sim.format_exc never reversed thread (Sim.three_files, [])))
     = map Z.of_nat (seq 1 3).
Proof.
  assert (Hfind : find_images false (folder_path thread) (Sim.three_files, [])
                  = (Return (map fst Sim.three_files), three_found))
    by (vm_compute; reflexivity).
  assert (Hworkers : 0 < max_workers thread) by (vm_compute; reflexivity).
  split; [exact Hfind|]. split; [vm_compute; reflexivity|].
  destruct (progress_counts_up false Sim.format_exc never reversed thread
              (Sim.three_files, []) three_found (map fst Sim.three_files) Hfind)
    as [_ [_ Hall]].
  exact (proj1 (Hall never_is_never Hworkers)).
Defined.

(** The ten files of which the fifth is broken: [finished(10, 0, 10)]. *)
Lemma failed_file_counted_as_skipped_witness :
  find_images false (folder_path thread) (Sim.ten_files, [])
  = (Return (map fst Sim.ten_files), ten_found)
  /\ count_outcome Failed ten_outcomes = 1
  /\ finished_events ten_trace = [(10, 0, 10)]
  /\ map fst (progress_events ten_trace) = [1; 2; 3; 4; 5; 6; 7; 8; 9; 10].
Proof.
  assert (Hfind : find_images false (folder_path thread) (Sim.ten_files, [])
                  = (Return (map fst Sim.ten_files), ten_found))
    by (vm_compute; reflexivity).
  assert (Hworkers : 0 < max_workers thread) by (vm_compute; reflexivity).
  assert (Hfailed : count_outcome Failed ten_outcomes = 1)
    by (vm_compute; reflexivity).
  split; [exact Hfind|]. split; [exact Hfailed|].
  destruct (failed_file_counted_as_skipped false Sim.format_exc never in_order
              thread (Sim.ten_files, []) ten_found (map fst Sim.ten_files)
              Hfind eq_refl never_is_never Hworkers Hfailed)
    as [Hfinished [Hprogress _]].
  split; [|exact Hprogress].
  unfold ten_trace. rewrite Hfinished. vm_compute. reflexivity.
Defined.

(** C9 as stated fails on these ten files: the specification's summary
    counts 9 skipped and 1 failed, the run reports 10 skipped. *)
Lemma ten_files_failure_reported_as_skipped :
  summary_of 10 ten_outcomes = mkSummary 10 10 0 9 1
  /\ finished_events ten_trace = [(10, 0, 10)]
  /\ ~ reports_summary ten_trace (summary_of 10 ten_outcomes).
Proof.
  split; [vm_compute; reflexivity|]. split; [vm_compute; reflexivity|].
  unfold reports_summary. vm_compute. intros Heq. discriminate Heq.
Qed.

End Witnesses.

(** ** [ImageProcessor.find_images] *)

Module DiscoveryFacts.
Import ImageProcessor Discovery PathFacts PathlibFacts ImageProcessorFacts.

Lemma rfind_app_found (c : ascii) (s1 s2 : string) (i : nat) :
  rfind c s2 = Some i ->
  rfind c (s1 ++ s2) = Some (String.length s1 + i)%nat.
Proof.
  intros Hi. induction s1 as [|a s1 IH]; simpl; [exact Hi|].
  now rewrite IH.
Qed.

Lemma length_append (s1 s2 : string) :
  String.length (s1 ++ s2) = (String.length s1 + String.length s2)%nat.
Proof. induction s1 as [|a s1 IH]; simpl; congruence. Qed.

Lemma substring_append_right (s1 s2 : string) :
  substring (String.length s1) (String.length s2) (s1 ++ s2) = s2.
Proof.
  induction s1 as [|a s1 IH]; simpl; [|exact IH].
  induction s2 as [|b s2 IH]; simpl; [reflexivity|].
  f_equal. destruct s2; [reflexivity|exact IH].
Qed.

(** The suffix of [stem.webp] is [.webp], when the stem is not empty. *)
Lemma suffix_webp (d st : string) :
  st <> ""%string ->
  suffix (mkPath d (st ++ ".webp")) = ".webp"%string.
Proof.
  intros Hst. unfold suffix. cbn [name].
  rewrite (rfind_app_found "." st ".webp" 0) by reflexivity.
  rewrite length_append, Nat.add_0_r. cbn [String.length].
  destruct st as [|a st]; [congruence|]. cbn [String.length].
  replace (Nat.ltb 0 (S (String.length st))) with true
    by (symmetry; apply Nat.ltb_lt; lia).
  replace (Nat.ltb (S (String.length st)) (S (String.length st) + 5 - 1))
    with true by (symmetry; apply Nat.ltb_lt; lia).
  cbn [andb].
  replace (S (String.length st) + 5 - S (String.length st))%nat with 5%nat
    by lia.
  exact (substring_append_right (String a st) ".webp").
Qed.

(** No supported suffix is [.webp]. *)
Lemma webp_not_supported (HEIC_SUPPORT : bool) (p : Path) :
  suffix p = ".webp"%string -> is_supported HEIC_SUPPORT p = false.
Proof.
  intros Hs. unfold is_supported. rewrite Hs.
  destruct HEIC_SUPPORT; reflexivity.
Qed.

Lemma supported_has_suffix (HEIC_SUPPORT : bool) (p : Path) :
  is_supported HEIC_SUPPORT p = true -> suffix p <> ""%string.
Proof.
  intros Hp Hs. unfold is_supported in Hp. rewrite Hs in Hp.
  destruct HEIC_SUPPORT; discriminate Hp.
Qed.

Lemma suffix_stem_nonempty (p : Path) :
  suffix p <> ""%string -> stem p <> ""%string /\ name p <> ""%string.
Proof.
  unfold suffix, stem.
  destruct (rfind "." (name p)) as [i|] eqn:Hr; [|congruence].
  apply rfind_lt in Hr.
  destruct (Nat.ltb 0 i && Nat.ltb i (String.length (name p) - 1)) eqn:Hc;
    [|congruence].
  intros _. apply andb_true_iff in Hc. destruct Hc as [Hi _].
  apply Nat.ltb_lt in Hi.
  assert (Hlen : String.length (substring 0 i (name p)) = i)
    by (apply length_substring; lia).
  split; intros Heq.
  - rewrite Heq in Hlen. simpl in Hlen. lia.
  - rewrite Heq in Hr. simpl in Hr. lia.
Qed.

Lemma is_supported_heic (p : Path) :
  is_supported false p = is_supported true p && negb (is_heic p).
Proof.
  unfold is_supported, is_heic, SUPPORTED_FORMATS.
  rewrite existsb_app. cbn [existsb app].
  destruct (String.eqb_spec (lower (suffix p)) ".heic") as [-> | Hne].
  - reflexivity.
  - rewrite !orb_false_r, andb_true_r. reflexivity.
Qed.

Lemma kept_without_heic (answers : list (Path * bool)) :
  kept false answers = filter (fun p => negb (is_heic p)) (kept true answers).
Proof.
  unfold kept. induction answers as [|[p b] answers IH]; [reflexivity|].
  cbn [filter fst snd]. rewrite is_supported_heic.
  destruct b; cbn [andb]; [|exact IH].
  destruct (is_supported true p); cbn [andb map filter fst].
  - destruct (negb (is_heic p)); cbn [map fst]; now rewrite IH.
  - exact IH.
Qed.

Lemma kept_app (HEIC_SUPPORT : bool) (a1 a2 : list (Path * bool)) :
  kept HEIC_SUPPORT (a1 ++ a2) = kept HEIC_SUPPORT a1 ++ kept HEIC_SUPPORT a2.
Proof. unfold kept. now rewrite filter_app, map_app. Qed.

Lemma in_kept (HEIC_SUPPORT : bool) (answers : list (Path * bool)) (p : Path) :
  In p (kept HEIC_SUPPORT answers) <->
  In (p, true) answers /\ is_supported HEIC_SUPPORT p = true.
Proof.
  unfold kept. rewrite in_map_iff. split.
  - intros [[q b] [<- Hin]]. apply filter_In in Hin. destruct Hin as [Hin Hk].
    cbn [fst snd] in *. apply andb_true_iff in Hk. destruct Hk as [-> Hs]. auto.
  - intros [Hin Hs]. exists (p, true). split; [reflexivity|].
    apply filter_In. split; [exact Hin|]. cbn [fst snd]. now rewrite Hs.
Qed.

Section WithCodec.
Context {W : Type} `{ImageCodec W}.

(** What [ask_is_file] leaves: one recorded call per answer. *)
Lemma ask_is_file_trace (entries : list Path) :
  forall (s s' : @St W) (answers : list (Path * bool)),
    ask_is_file entries s = (Return answers, s') ->
    map fst answers = entries
    /\ snd s' = snd s ++ is_file_events answers.
Proof.
  induction entries as [|p entries IH]; intros s s' answers Hask.
  - injection Hask as <- <-. split; [reflexivity|]. simpl. now rewrite app_nil_r.
  - cbn [ask_is_file] in Hask. unfold bind, call, ret in Hask.
    destruct (Path_is_file p (fst s)) as [[b|e] w'] eqn:Hp; [|discriminate].
    fold (@ask_is_file W _) in Hask.
    destruct (ask_is_file entries (w', snd s ++ [EvIsFile p (Return b)]))
      as [[rest|e] s''] eqn:Hrest; [|discriminate].
    injection Hask as <- <-.
    destruct (IH _ _ _ Hrest) as [Hfst Htrace].
    split; [simpl; congruence|].
    rewrite Htrace. cbn [snd is_file_events map fst]. now rewrite <- app_assoc.
Qed.

(** The loop of [find_images] is [ask_is_file] followed by the filter. *)
Lemma find_images_loop_eq (HEIC_SUPPORT : bool) (entries : list Path) :
  forall (images : list Path) (s : @St W),
    find_images_loop HEIC_SUPPORT entries images s
    = (match fst (ask_is_file entries s) with
       | Return answers => Return (images ++ kept HEIC_SUPPORT answers)
       | Raise e => Raise e
       end,
       snd (ask_is_file entries s)).
Proof.
  induction entries as [|p entries IH]; intros images s.
  - unfold kept. simpl. unfold ret. now rewrite app_nil_r.
  - cbn [find_images_loop ask_is_file]. unfold bind, call, ret.
    destruct (Path_is_file p (fst s)) as [[b|e] w'] eqn:Hp; [|reflexivity].
    fold (is_supported HEIC_SUPPORT p).
    destruct (b && is_supported HEIC_SUPPORT p) eqn:Hk; rewrite IH;
      destruct (ask_is_file entries (w', snd s ++ [EvIsFile p (Return b)]))
        as [[rest|e] s'']; cbn [fst snd]; try reflexivity;
      unfold kept; cbn [filter fst snd]; rewrite Hk; cbn [map fst];
      now rewrite <- ?app_assoc.
Qed.

Lemma find_images_eq (HEIC_SUPPORT : bool) (root_folder : Path) (s : @St W) :
  find_images HEIC_SUPPORT root_folder s
  = match Path_rglob root_folder (fst s) with
    | (Return entries, w') =>
        let s1 := (w', snd s ++ [EvRglob root_folder (Return entries)]) in
        (match fst (ask_is_file entries s1) with
         | Return answers => Return (kept HEIC_SUPPORT answers)
         | Raise e => Raise e
         end,
         snd (ask_is_file entries s1))
    | (Raise e, w') =>
        (Raise e, (w', snd s ++ [EvRglob root_folder (Raise e)]))
    end.
Proof.
  unfold find_images, bind, call.
  destruct (Path_rglob root_folder (fst s)) as [[entries|e] w'];
    [|reflexivity].
  now rewrite find_images_loop_eq.
Qed.

Lemma find_images_supported (HEIC_SUPPORT : bool) (root_folder : Path)
    (s s' : @St W) (images : list Path) :
  find_images HEIC_SUPPORT root_folder s = (Return images, s') ->
  forall p, In p images -> is_supported HEIC_SUPPORT p = true.
Proof.
  rewrite find_images_eq.
  destruct (Path_rglob root_folder (fst s)) as [[entries|e] w'];
    [|discriminate].
  cbv zeta.
  destruct (fst (ask_is_file entries
                   (w', snd s ++ [EvRglob root_folder (Return entries)])))
    as [answers|e]; [|discriminate].
  intros Hfind p Hin. injection Hfind as <- _.
  now apply in_kept in Hin.
Qed.

(** Discovery only reads, and returns what it should: when [find_images]
    returns, it has called [rglob] once on the root and [is_file()] once
    on every entry, in order, and nothing else; its result is, in the
    order of the traversal, every entry for which [is_file()] answered
    true and whose lower-cased suffix is a supported format. *)
Theorem find_images_reads_and_filters (HEIC_SUPPORT : bool)
    (root_folder : Path) (s s' : @St W) (images : list Path) :
  find_images HEIC_SUPPORT root_folder s = (Return images, s') ->
  exists answers,
    snd s' = snd s ++ EvRglob root_folder (Return (map fst answers))
                        :: is_file_events answers
    /\ images = kept HEIC_SUPPORT answers
    /\ forall p, In p images <->
                 In (p, true) answers /\ is_supported HEIC_SUPPORT p = true.
Proof.
  rewrite find_images_eq.
  destruct (Path_rglob root_folder (fst s)) as [[entries|e] w'];
    [|discriminate].
  cbv zeta.
  destruct (ask_is_file entries
              (w', snd s ++ [EvRglob root_folder (Return entries)]))
    as [[answers|e] s''] eqn:Hask; cbn [fst snd]; [|discriminate].
  intros Hfind. injection Hfind as <- <-.
  destruct (ask_is_file_trace _ _ _ _ Hask) as [Hfst Htrace].
  exists answers. split; [|split].
  - rewrite Htrace, Hfst. cbn [snd]. now rewrite <- app_assoc.
  - reflexivity.
  - intros p. apply in_kept.
Qed.

(** HEIC support only adds files: from the same world, discovery without
    HEIC support ends in the same world as discovery with it, raises when
    it raises, and returns its result without the [.heic] files. *)
Theorem find_images_without_heic (root_folder : Path) (s : @St W) :
  find_images false root_folder s
  = (match fst (find_images true root_folder s) with
     | Return images => Return (filter (fun p => negb (is_heic p)) images)
     | Raise e => Raise e
     end,
     snd (find_images true root_folder s)).
Proof.
  rewrite !find_images_eq.
  destruct (Path_rglob root_folder (fst s)) as [[entries|e] w'];
    [|reflexivity].
  cbv zeta.
  destruct (ask_is_file entries
              (w', snd s ++ [EvRglob root_folder (Return entries)]))
    as [[answers|e] s'']; cbn [fst snd]; [|reflexivity].
  now rewrite kept_without_heic.
Qed.

(** A discovered file is never its own output: for every file that
    [find_images] returns, [with_suffix('.webp')] gives a path in the same
    directory that differs from the file and that is itself no candidate
    (its suffix is [.webp], which no run discovers). *)
Theorem discovered_file_has_other_output (HEIC_SUPPORT : bool)
    (root_folder : Path) (s s' : @St W) (images : list Path) :
  find_images HEIC_SUPPORT root_folder s = (Return images, s') ->
  forall file_path, In file_path images ->
    exists output_path,
      with_suffix file_path ".webp" = Return output_path
      /\ output_path <> file_path
      /\ parent output_path = parent file_path
      /\ suffix output_path = ".webp"%string
      /\ forall heic, is_supported heic output_path = false.
Proof.
  intros Hfind file_path Hin.
  pose proof (find_images_supported _ _ _ _ _ Hfind file_path Hin) as Hsup.
  pose proof (supported_has_suffix _ _ Hsup) as Hsfx.
  destruct (suffix_stem_nonempty _ Hsfx) as [Hstem Hname].
  exists (mkPath (parent file_path) (stem file_path ++ ".webp")).
  assert (Hwebp : suffix (mkPath (parent file_path) (stem file_path ++ ".webp"))
                  = ".webp"%string) by (apply suffix_webp, Hstem).
  split; [apply with_suffix_stem, Hname|].
  split; [|split; [reflexivity|split; [exact Hwebp|]]].
  - intros Heq. rewrite Heq in Hwebp.
    unfold is_supported in Hsup. rewrite Hwebp in Hsup.
    destruct HEIC_SUPPORT; discriminate Hsup.
  - intros heic. apply webp_not_supported, Hwebp.
Qed.

End WithCodec.

End DiscoveryFacts.


(** ** Binary64 rounding of the two float computations

    [SFdiv] and [SFmul] round to nearest, ties to even; for the integers
    the program divides and multiplies, the results stay in the normal
    range and the error of each is at most half a unit in the last
    place. *)

Module FloatFacts.
Import Rounding.

Lemma rec_inv_bounds mrs N D :
  rec_inv mrs N D -> shr_m mrs * D <= N < (shr_m mrs + 1) * D.
Proof.
  destruct mrs as [m r s]. unfold rec_inv. cbn [shr_m shr_r shr_s].
  intros (HD & Hm & H). destruct r, s; lia.
Qed.

Lemma shr_1_inv mrs N D : rec_inv mrs N D -> rec_inv (shr_1 mrs) N (2 * D).
Proof.
  destruct mrs as [m r s]. unfold rec_inv. cbn [shr_m shr_r shr_s].
  intros (HD & Hm & H).
  destruct m as [|[p|p|]|p]; destruct r, s;
    cbn [shr_1 shr_m shr_r shr_s orb] in *; lia.
Qed.

Lemma pow2_xI p : 2 ^ Zpos p~1 = 2 ^ Zpos p * (2 ^ Zpos p * 2).
Proof.
  replace (Zpos p~1) with (Zpos p + (Zpos p + 1)) by lia.
  rewrite !Z.pow_add_r, Z.pow_1_r by lia. reflexivity.
Qed.

Lemma pow2_xO p : 2 ^ Zpos p~0 = 2 ^ Zpos p * 2 ^ Zpos p.
Proof.
  replace (Zpos p~0) with (Zpos p + Zpos p) by lia.
  rewrite !Z.pow_add_r by lia. reflexivity.
Qed.

Lemma iter_pos_shr_1_inv p : forall mrs N D,
  rec_inv mrs N D -> rec_inv (iter_pos shr_1 p mrs) N (2 ^ Zpos p * D).
Proof.
  induction p as [p IH|p IH|]; intros mrs N D H; simpl iter_pos.
  - apply shr_1_inv in H. apply IH in H. apply IH in H.
    rewrite pow2_xI, <- !Z.mul_assoc. exact H.
  - apply IH in H. apply IH in H.
    rewrite pow2_xO, <- !Z.mul_assoc. exact H.
  - apply shr_1_inv in H. exact H.
Qed.

Lemma round_nearest_even_spec mrs N D :
  rec_inv mrs N D ->
  let m1 := round_nearest_even (shr_m mrs) (loc_of_shr_record mrs) in
  shr_m mrs <= m1 <= shr_m mrs + 1
  /\ - D <= 2 * (m1 * D - N) <= D
  /\ (forall c, N = c * D -> m1 = c).
Proof.
  destruct mrs as [m r s]. unfold rec_inv. cbn [shr_m shr_r shr_s].
  intros (HD & Hm & H).
  destruct r, s; cbn [loc_of_shr_record round_nearest_even];
    try destruct (Z.even m); repeat split; try lia;
    intros c Hc; subst N; nia.
Qed.

Lemma digits2_pos_size p : digits2_pos p = Pos.size p.
Proof. induction p; simpl; congruence. Qed.

Lemma Zdigits2_log2 p : Zdigits2 (Zpos p) = Z.log2 (Zpos p) + 1.
Proof.
  cbn [Zdigits2]. rewrite digits2_pos_size.
  destruct p; cbn [Z.log2 Pos.size]; lia.
Qed.

Lemma Zdigits2_bounds p :
  2 ^ (Zdigits2 (Zpos p) - 1) <= Zpos p < 2 ^ Zdigits2 (Zpos p).
Proof.
  rewrite Zdigits2_log2.
  replace (Z.log2 (Zpos p) + 1 - 1) with (Z.log2 (Zpos p)) by lia.
  replace (Z.log2 (Zpos p) + 1) with (Z.succ (Z.log2 (Zpos p))) by lia.
  apply Z.log2_spec. lia.
Qed.

Lemma Zdigits2_unique p d :
  2 ^ (d - 1) <= Zpos p < 2 ^ d -> 1 <= d -> Zdigits2 (Zpos p) = d.
Proof.
  intros Hp Hd. rewrite Zdigits2_log2.
  rewrite (Z.log2_unique (Zpos p) (d - 1)); [lia | lia |].
  replace (Z.succ (d - 1)) with d by lia. exact Hp.
Qed.

Lemma shr_inv mrs e n N D :
  rec_inv mrs N D -> 0 <= n ->
  exists mrs', shr mrs e n = (mrs', e + n) /\ rec_inv mrs' N (2 ^ n * D).
Proof.
  intros H Hn. destruct n as [|p|p]; [| |lia].
  - exists mrs. cbn [shr]. rewrite Z.add_0_r, Z.pow_0_r, Z.mul_1_l. auto.
  - exists (iter_pos shr_1 p mrs). cbn [shr]. split; [reflexivity|].
    apply iter_pos_shr_1_inv, H.
Qed.

Lemma rec_inv_mantissa mrs N D lo hi :
  rec_inv mrs N D -> lo * D <= N < hi * D -> lo <= shr_m mrs < hi.
Proof.
  intros H Hr. pose proof (rec_inv_bounds _ _ _ H) as Hb.
  destruct H as (HD & _). split.
  - apply Z.lt_succ_r. apply (Z.mul_lt_mono_pos_r D); [exact HD|]. lia.
  - apply (Z.mul_lt_mono_pos_r D); [exact HD|]. lia.
Qed.

Lemma fexp_normal e : -1074 <= e - 53 -> fexp 53 1024 e = e - 53.
Proof. intros He. unfold fexp, emin. lia. Qed.

Lemma binary_round_aux_normal (mx : positive) ex lx N D :
  rec_inv (shr_record_of_loc (Zpos mx) lx) N D ->
  let d := Zdigits2 (Zpos mx) in
  53 <= d -> -1074 <= d + ex - 53 -> d + ex - 53 + 1 <= 971 ->
  exists m e,
    binary_round_aux 53 1024 false (Zpos mx) ex lx = S754_finite false m e
    /\ 2 ^ 52 <= Zpos m < 2 ^ 53
    /\ ex + (d - 53) <= e <= ex + (d - 53) + 1
    /\ - (2 ^ (e - ex) * D) <= 2 * (Zpos m * (2 ^ (e - ex) * D) - N)
       <= 2 ^ (e - ex) * D
    /\ (forall c, N = c * (2 ^ (d - 53) * D) -> Zpos m * (2 ^ (e - ex) * D) = N).
Proof.
  intros Hinv d Hd Hmin Hmax.
  assert (HD : 0 < D) by apply Hinv.
  pose proof (Zdigits2_bounds mx) as Hmx. fold d in Hmx.
  pose proof (rec_inv_bounds _ _ _ Hinv) as HN.
  assert (Hm0 : shr_m (shr_record_of_loc (Zpos mx) lx) = Zpos mx)
    by (destruct lx as [|[]]; reflexivity).
  rewrite Hm0 in HN.
  unfold binary_round_aux, shr_fexp. fold d.
  rewrite (fexp_normal (d + ex)) by lia.
  replace (d + ex - 53 - ex) with (d - 53) by lia.
  destruct (shr_inv _ ex (d - 53) N D Hinv ltac:(lia)) as [rec1 [Hshr Hrec1]].
  rewrite Hshr.
  set (e1 := ex + (d - 53)) in *.
  set (D1 := 2 ^ (d - 53) * D) in *.
  assert (HD1 : 0 < D1) by apply Hrec1.
  assert (Hp52 : 2 ^ 52 * D1 = 2 ^ (d - 1) * D).
  { unfold D1. rewrite Z.mul_assoc, <- Z.pow_add_r by lia.
    f_equal. f_equal. lia. }
  assert (Hp53 : 2 ^ 53 * D1 = 2 ^ d * D).
  { unfold D1. rewrite Z.mul_assoc, <- Z.pow_add_r by lia.
    f_equal. f_equal. lia. }
  assert (Hrange : 2 ^ 52 * D1 <= N < 2 ^ 53 * D1).
  { rewrite Hp52, Hp53. split.
    - apply Z.le_trans with (Zpos mx * D); [|lia].
      apply Z.mul_le_mono_nonneg_r; lia.
    - apply Z.lt_le_trans with ((Zpos mx + 1) * D); [lia|].
      apply Z.mul_le_mono_nonneg_r; lia. }
  pose proof (rec_inv_mantissa _ _ _ _ _ Hrec1 Hrange) as Hm1.
  destruct (round_nearest_even_spec _ _ _ Hrec1) as (Hr1 & Herr & Hexact).
  set (m1 := round_nearest_even (shr_m rec1) (loc_of_shr_record rec1)) in *.
  change (2 ^ 52) with 4503599627370496 in *.
  change (2 ^ 53) with 9007199254740992 in *.
  destruct (Z.eq_dec m1 9007199254740992) as [Hcarry|Hnocarry].
  - rewrite Hcarry. cbv beta iota.
    change (Zdigits2 9007199254740992) with 54.
    rewrite (fexp_normal (54 + e1)) by lia.
    replace (54 + e1 - 53 - e1) with 1 by lia.
    cbn [shr_record_of_loc shr iter_pos shr_1 shr_m].
    replace (e1 + 1 <=? 1024 - 53) with true by (symmetry; apply Z.leb_le; lia).
    exists 4503599627370496%positive, (e1 + 1).
    split; [reflexivity|]. split; [lia|]. split; [lia|].
    replace (e1 + 1 - ex) with (d - 53 + 1) by lia.
    rewrite Z.pow_add_r, Z.pow_1_r by lia.
    fold D1. replace (2 ^ (d - 53) * 2 * D) with (2 * D1) by (unfold D1; ring).
    rewrite Hcarry in Herr. split; [lia|].
    intros c Hc. specialize (Hexact c Hc). subst c. rewrite Hc, Hcarry. ring.
  - assert (Hm1r : 4503599627370496 <= m1 < 9007199254740992) by lia.
    destruct m1 as [|p1|p1] eqn:Hm1e; [lia| |lia].
    cbv beta iota.
    rewrite (Zdigits2_unique p1 53) by (change (2 ^ (53 - 1)) with 4503599627370496;
      change (2 ^ 53) with 9007199254740992; lia).
    rewrite (fexp_normal (53 + e1)) by lia.
    replace (53 + e1 - 53 - e1) with 0 by lia.
    cbn [shr_record_of_loc shr shr_m].
    replace (e1 <=? 1024 - 53) with true by (symmetry; apply Z.leb_le; lia).
    exists p1, e1.
    split; [reflexivity|]. split; [lia|]. split; [lia|].
    replace (e1 - ex) with (d - 53) by lia. fold D1.
    split; [lia|].
    intros c Hc. specialize (Hexact c Hc). subst c. exact (eq_sym Hc).
Qed.

Lemma new_location_inv (b r q : Z) :
  0 <= r < b -> 0 <= q ->
  rec_inv (shr_record_of_loc q (new_location b r)) (q * b + r) b.
Proof.
  intros Hr Hq. unfold new_location, new_location_even, new_location_odd.
  destruct (Z.even b) eqn:Hev.
  - destruct (Z.eqb_spec r 0) as [->|Hr0].
    + unfold rec_inv. cbn [shr_record_of_loc shr_m shr_r shr_s]. lia.
    + destruct (Z.compare_spec (2 * r) b);
        unfold rec_inv; cbn [shr_record_of_loc shr_m shr_r shr_s]; lia.
  - assert (Hodd : Z.odd b = true) by (rewrite <- Z.negb_even, Hev; reflexivity).
    apply Z.odd_spec in Hodd. destruct Hodd as [c Hc].
    destruct (Z.eqb_spec r 0) as [->|Hr0].
    + unfold rec_inv. cbn [shr_record_of_loc shr_m shr_r shr_s]. lia.
    + destruct (Z.compare_spec (2 * r + 1) b);
        unfold rec_inv; cbn [shr_record_of_loc shr_m shr_r shr_s]; lia.
Qed.

Lemma pow2_pos n : 0 <= n -> 0 < 2 ^ n.
Proof. intros. apply Z.pow_pos_nonneg; lia. Qed.

Lemma pow2_le n k : 0 <= n <= k -> 2 ^ n <= 2 ^ k.
Proof. intros. apply Z.pow_le_mono_r; lia. Qed.

Lemma pow2_lt n k : 0 <= n < k -> 2 ^ n < 2 ^ k.
Proof. intros. apply Z.pow_lt_mono_r; lia. Qed.

Lemma pow2_lt_inv n k : 0 <= n -> 0 <= k -> 2 ^ n < 2 ^ k -> n < k.
Proof. intros Hn Hk H. apply (Z.pow_lt_mono_r_iff 2); lia. Qed.

Lemma Zdigits2_mono p q : Zpos p <= Zpos q -> Zdigits2 (Zpos p) <= Zdigits2 (Zpos q).
Proof.
  intros H. rewrite !Zdigits2_log2. pose proof (Z.log2_le_mono _ _ H). lia.
Qed.

Lemma Zdigits2_pos p : 1 <= Zdigits2 (Zpos p).
Proof. rewrite Zdigits2_log2. pose proof (Z.log2_nonneg (Zpos p)). lia. Qed.

Lemma Zdigits2_le_of_lt p k : 0 <= k -> Zpos p < 2 ^ k -> Zdigits2 (Zpos p) <= k.
Proof.
  intros Hk H. pose proof (Zdigits2_bounds p) as Hb. pose proof (Zdigits2_pos p).
  assert (2 ^ (Zdigits2 (Zpos p) - 1) < 2 ^ k) by lia.
  apply pow2_lt_inv in H1; lia.
Qed.

(** [a / b] for [1 <= a <= b < 2^62]: a normal number within half a unit
    in the last place of the quotient, at most 1, and exactly 1 when
    [a = b]. *)
Lemma SFdiv_ints (a b : positive) :
  Zpos a <= Zpos b -> Zpos b < 2 ^ 62 ->
  exists m e,
    SFdiv 53 1024 (S754_finite false a 0) (S754_finite false b 0)
    = S754_finite false m e
    /\ 2 ^ 52 <= Zpos m < 2 ^ 53
    /\ -120 <= e <= -52
    /\ - Zpos b <= 2 * (Zpos m * Zpos b - Zpos a * 2 ^ (- e)) <= Zpos b
    /\ (a = b -> Zpos m = 2 ^ 52 /\ e = -52).
Proof.
  intros Hab Hb.
  set (d1 := Zdigits2 (Zpos a)). set (d2 := Zdigits2 (Zpos b)).
  assert (Hd1 : 1 <= d1) by apply Zdigits2_pos.
  assert (Hd12 : d1 <= d2) by (apply Zdigits2_mono, Hab).
  assert (Hd2 : d2 <= 62) by (apply Zdigits2_le_of_lt; lia).
  pose proof (Zdigits2_bounds a) as Ha'. fold d1 in Ha'.
  pose proof (Zdigits2_bounds b) as Hb'. fold d2 in Hb'.
  unfold SFdiv, SFdiv_core_binary. fold d1 d2.
  rewrite !Z.add_0_r, Z.sub_0_r.
  rewrite (fexp_normal (d1 - d2)) by lia.
  rewrite Z.min_l by lia.
  set (e' := d1 - d2 - 53).
  replace (0 - e') with (53 + d2 - d1) by (unfold e'; lia).
  set (s := 53 + d2 - d1).
  assert (Hs : 0 < s) by (unfold s; lia).
  destruct s as [|ps|ps] eqn:Hse; [lia| |lia]. rewrite <- Hse in *.
  rewrite Z.shiftl_mul_pow2 by lia.
  pose proof (Z_div_mod (Zpos a * 2 ^ s) (Zpos b) ltac:(lia)) as Hdm.
  destruct (Z.div_eucl (Zpos a * 2 ^ s) (Zpos b)) as [q r].
  destruct Hdm as [Hqr Hr].
  assert (Hps : 0 < 2 ^ s) by (apply pow2_pos; lia).
  assert (Hlow : 2 ^ 52 * Zpos b < Zpos a * 2 ^ s).
  { assert (2 ^ (d1 - 1) * 2 ^ s = 2 ^ 52 * 2 ^ d2).
    { rewrite <- !Z.pow_add_r by lia. f_equal. unfold s. lia. }
    assert (2 ^ 52 * Zpos b < 2 ^ 52 * 2 ^ d2)
      by (apply Z.mul_lt_mono_pos_l; [reflexivity|lia]).
    assert (2 ^ (d1 - 1) * 2 ^ s <= Zpos a * 2 ^ s)
      by (apply Z.mul_le_mono_nonneg_r; lia).
    lia. }
  assert (Hhigh : Zpos a * 2 ^ s < 2 ^ 54 * Zpos b).
  { assert (2 ^ d1 * 2 ^ s = 2 ^ 54 * 2 ^ (d2 - 1)).
    { rewrite <- !Z.pow_add_r by lia. f_equal. unfold s. lia. }
    assert (2 ^ 54 * 2 ^ (d2 - 1) <= 2 ^ 54 * Zpos b)
      by (apply Z.mul_le_mono_nonneg_l; lia).
    assert (Zpos a * 2 ^ s < 2 ^ d1 * 2 ^ s)
      by (apply Z.mul_lt_mono_pos_r; lia).
    lia. }
  assert (Hq : 2 ^ 52 <= q < 2 ^ 54).
  { split.
    - apply Z.lt_succ_r. apply (Z.mul_lt_mono_pos_r (Zpos b)); [lia|]. lia.
    - apply (Z.mul_lt_mono_pos_r (Zpos b)); [lia|]. lia. }
  destruct q as [|pq|pq]; [lia| |lia].
  assert (Hdq : 53 <= Zdigits2 (Zpos pq) <= 54).
  { pose proof (Zdigits2_bounds pq) as Hbq. pose proof (Zdigits2_pos pq).
    split.
    - assert (2 ^ 52 < 2 ^ Zdigits2 (Zpos pq)) by lia.
      apply pow2_lt_inv in H0; lia.
    - apply Zdigits2_le_of_lt; lia. }
  pose proof (new_location_inv (Zpos b) r (Zpos pq) Hr ltac:(lia)) as Hinv.
  replace (Zpos pq * Zpos b + r) with (Zpos a * 2 ^ s) in Hinv by lia.
  destruct (binary_round_aux_normal pq e' _ _ _ Hinv) as (m & e & Heq & Hm & He & Herr & _);
    [lia | unfold e'; lia | unfold e'; lia |].
  exists m, e. cbn [xorb]. split; [exact Heq|]. split; [exact Hm|].
  assert (Hek : 0 <= e - e') by lia.
  assert (Hne : 0 <= - e) by (unfold e' in *; lia).
  assert (Hsplit : 2 ^ s = 2 ^ (- e) * 2 ^ (e - e')).
  { rewrite <- Z.pow_add_r by lia. f_equal. unfold s, e'. lia. }
  set (P := 2 ^ (e - e')) in *. set (T := 2 ^ (- e)) in *.
  assert (HP : 0 < P) by (apply pow2_pos; lia).
  assert (HT : 0 < T) by (apply pow2_pos; lia).
  rewrite Hsplit in Herr.
  assert (Herr' : - Zpos b <= 2 * (Zpos m * Zpos b - Zpos a * T) <= Zpos b).
  { split.
    - apply (Z.mul_le_mono_pos_l _ _ P); [exact HP|]. lia.
    - apply (Z.mul_le_mono_pos_l _ _ P); [exact HP|]. lia. }
  assert (HmT : Zpos m <= T).
  { apply Z.lt_succ_r. apply (Z.mul_lt_mono_pos_r (Zpos b)); [lia|].
    assert (Zpos a * T <= Zpos b * T) by (apply Z.mul_le_mono_nonneg_r; lia).
    lia. }
  assert (He52 : e <= -52).
  { assert (2 ^ 52 <= 2 ^ (- e)) by (fold T; lia).
    destruct (Z_le_gt_dec 52 (- e)); [lia|].
    assert (2 ^ (- e) < 2 ^ 52) by (apply pow2_lt; lia). lia. }
  split; [unfold e' in *; lia|]. split; [exact Herr'|].
  intros ->.
  assert (HmT' : Zpos m = T).
  { assert (2 * (Zpos m - T) * Zpos b <= Zpos b) by lia.
    assert (- Zpos b <= 2 * (Zpos m - T) * Zpos b) by lia.
    destruct (Z.eq_dec (Zpos m) T); [assumption|].
    assert (Zpos m + 1 <= T) by lia.
    assert ((Zpos m + 1) * Zpos b <= T * Zpos b)
      by (apply Z.mul_le_mono_nonneg_r; lia).
    lia. }
  assert (- e = 52).
  { destruct (Z.lt_trichotomy (- e) 52) as [Hl|[Heq52|Hg]]; [lia|exact Heq52|].
    assert (2 ^ 53 <= 2 ^ (- e)) by (apply pow2_le; lia). fold T in H. lia. }
  split; [|lia]. rewrite HmT'. unfold T. now rewrite H.
Qed.

Lemma SFmul_int (m : positive) (e : Z) (K : positive) :
  2 ^ 52 <= Zpos m < 2 ^ 53 -> -200 <= e <= 0 -> Zpos K < 2 ^ 12 ->
  exists m2 e2,
    SFmul 53 1024 (S754_finite false m e) (S754_finite false K 0)
    = S754_finite false m2 e2
    /\ 2 ^ 52 <= Zpos m2 < 2 ^ 53
    /\ e <= e2 <= e + 13
    /\ - 2 ^ (e2 - e) <= 2 * (Zpos m2 * 2 ^ (e2 - e) - Zpos m * Zpos K)
       <= 2 ^ (e2 - e)
    /\ (forall c, Zpos m * Zpos K = c * 2 ^ 13 ->
                  Zpos m2 * 2 ^ (e2 - e) = Zpos m * Zpos K).
Proof.
  intros Hm He HK.
  unfold SFmul. cbn [xorb]. rewrite Z.add_0_r.
  set (d := Zdigits2 (Zpos (m * K))).
  assert (HmK : 2 ^ 52 <= Zpos (m * K) < 2 ^ 65).
  { rewrite Pos2Z.inj_mul. split.
    - assert (Zpos m * 1 <= Zpos m * Zpos K)
        by (apply Z.mul_le_mono_nonneg_l; lia). lia.
    - change (2 ^ 65) with (2 ^ 53 * 2 ^ 12).
      apply Z.mul_lt_mono_nonneg; lia. }
  assert (Hd : 53 <= d <= 65).
  { pose proof (Zdigits2_bounds (m * K)) as Hb. fold d in Hb.
    pose proof (Zdigits2_pos (m * K)) as Hp. fold d in Hp. split.
    - assert (2 ^ 52 < 2 ^ d) by lia. apply pow2_lt_inv in H; lia.
    - apply Zdigits2_le_of_lt; lia. }
  assert (Hinv : rec_inv (shr_record_of_loc (Zpos (m * K)) loc_Exact)
                   (Zpos (m * K)) 1).
  { unfold rec_inv. cbn [shr_record_of_loc shr_m shr_r shr_s]. lia. }
  destruct (binary_round_aux_normal (m * K) e _ _ _ Hinv)
    as (m2 & e2 & Heq & Hm2 & He2 & Herr & Hexact); fold d; [lia|lia|lia|].
  fold d in He2, Hexact.
  exists m2, e2. split; [exact Heq|]. split; [exact Hm2|].
  split; [lia|]. rewrite !Z.mul_1_r in Herr. rewrite Pos2Z.inj_mul in *.
  split; [exact Herr|].
  intros c Hc.
  specialize (Hexact (c * 2 ^ (13 - (d - 53)))).
  rewrite !Z.mul_1_r in Hexact. apply Hexact.
  rewrite <- Z.mul_assoc, <- Z.pow_add_r by lia.
  replace (13 - (d - 53) + (d - 53)) with 13 by lia. exact Hc.
Qed.

Lemma scale_zero (b K : Z) : 0 < b -> 0 < K -> scale 0 b K = Return 0.
Proof.
  intros Hb HK. unfold scale, PyFloat.truediv.
  replace (b =? 0) with false by (symmetry; apply Z.eqb_neq; lia).
  destruct b as [|pb|pb]; [lia| |lia]. destruct K as [|pK|pK]; [lia| |lia].
  reflexivity.
Qed.

Lemma scale_ints (a b K : Z) :
  1 <= a <= b -> b < 2 ^ 31 -> 1 <= K < 2 ^ 12 ->
  exists n,
    scale a b K = Return n
    /\ a * K / b - 1 <= n <= a * K / b
    /\ ((a * K) mod b <> 0 -> n = a * K / b)
    /\ (a = b -> n = K).
Proof.
  intros Ha Hb HK.
  destruct a as [|pa|pa]; [lia| |lia]. destruct b as [|pb|pb]; [lia| |lia].
  destruct K as [|pK|pK]; [lia| |lia].
  unfold scale, PyFloat.truediv, PyFloat.mul_int, PyFloat.of_int,
    PyFloat.prec, PyFloat.emax.
  replace (Zpos pb =? 0) with false by reflexivity.
  destruct (SFdiv_ints pa pb) as (m & e & Hdiv & Hm & He & Herr1 & Hsame);
    [lia | change (2 ^ 62) with 4611686018427387904;
           change (2 ^ 31) with 2147483648 in Hb; lia |].
  rewrite Hdiv.
  destruct (SFmul_int m e pK Hm) as (m2 & e2 & Hmul & Hm2 & He2 & Herr2 & Hexact);
    [lia | lia |].
  rewrite Hmul. unfold PyFloat.to_int.
  replace (0 <=? e2) with false by (symmetry; apply Z.leb_gt; lia).
  rewrite Z.shiftr_div_pow2 by lia.
  eexists. split; [reflexivity|].
  set (T1 := 2 ^ (- e)) in *. set (P := 2 ^ (e2 - e)) in *.
  set (T2 := 2 ^ (- e2)).
  assert (HT : T1 = T2 * P).
  { unfold T1, T2, P. rewrite <- Z.pow_add_r by lia. f_equal. lia. }
  assert (HP : 0 < P) by (apply pow2_pos; lia).
  assert (HT2 : 0 < T2) by (apply pow2_pos; lia).
  assert (HP13 : P <= 2 ^ 13) by (apply pow2_le; lia).
  assert (HT1 : 2 ^ 52 <= T1) by (apply pow2_le; lia).
  change (2 ^ 13) with 8192 in *. change (2 ^ 52) with 4503599627370496 in *.
  change (2 ^ 53) with 9007199254740992 in *.
  change (2 ^ 31) with 2147483648 in *. change (2 ^ 12) with 4096 in *.
  set (am := Zpos pa) in *. set (bm := Zpos pb) in *. set (Km := Zpos pK) in *.
  set (M := Zpos m) in *. set (M2 := Zpos m2) in *.
  set (u := 2 * (M2 * P - M * Km)) in *.
  set (v := 2 * (M * bm - am * T1)) in *.
  assert (Hid : 2 * P * (M2 * bm - am * Km * T2) = bm * u + Km * v).
  { unfold u, v. rewrite HT. ring. }
  assert (Hbu : - (bm * P) <= bm * u <= bm * P).
  { split.
    - replace (- (bm * P)) with (bm * - P) by ring.
      apply Z.mul_le_mono_nonneg_l; lia.
    - apply Z.mul_le_mono_nonneg_l; lia. }
  assert (HKv : - (Km * bm) <= Km * v <= Km * bm).
  { split.
    - replace (- (Km * bm)) with (Km * - bm) by ring.
      apply Z.mul_le_mono_nonneg_l; lia.
    - apply Z.mul_le_mono_nonneg_l; lia. }
  assert (HbP : bm * P <= 2147483648 * 8192)
    by (apply Z.mul_le_mono_nonneg; lia).
  assert (HKb : Km * bm <= 4096 * 2147483648)
    by (apply Z.mul_le_mono_nonneg; lia).
  set (Dl := M2 * bm - am * Km * T2) in *.
  assert (H2PT : 2 * 4503599627370496 <= 2 * P * T2) by (rewrite HT in HT1; lia).
  assert (HDl : - T2 < Dl < T2).
  { split.
    - apply (Z.mul_lt_mono_pos_l (2 * P)); [lia|]. lia.
    - apply (Z.mul_lt_mono_pos_l (2 * P)); [lia|]. lia. }
  pose proof (Z.div_mod (am * Km) bm ltac:(lia)) as Hdm.
  pose proof (Z.mod_pos_bound (am * Km) bm ltac:(lia)) as Hrho.
  set (Q := am * Km / bm) in *. set (rho := (am * Km) mod bm) in *.
  assert (HM2b : M2 * bm = (bm * Q + rho) * T2 + Dl) by (unfold Dl; rewrite <- Hdm; ring).
  assert (Hup : M2 < T2 * (Q + 1)).
  { apply (Z.mul_lt_mono_pos_r bm); [lia|].
    assert ((rho + 1) * T2 <= bm * T2) by (apply Z.mul_le_mono_nonneg_r; lia).
    lia. }
  assert (Hlo : T2 * (Q - 1) <= M2).
  { apply (Z.mul_le_mono_pos_r _ _ bm); [lia|].
    assert (0 <= rho * T2) by (apply Z.mul_nonneg_nonneg; lia).
    assert (1 * T2 <= bm * T2) by (apply Z.mul_le_mono_nonneg_r; lia).
    lia. }
  split; [|split].
  - split.
    + apply Z.div_le_lower_bound; lia.
    + apply Z.lt_succ_r. apply Z.div_lt_upper_bound; lia.
  - intros Hrho0.
    assert (Hlo' : T2 * Q <= M2).
    { apply (Z.mul_le_mono_pos_r _ _ bm); [lia|].
      assert (1 * T2 <= rho * T2) by (apply Z.mul_le_mono_nonneg_r; lia).
      lia. }
    apply Z.le_antisymm.
    + apply Z.lt_succ_r. apply Z.div_lt_upper_bound; lia.
    + apply Z.div_le_lower_bound; lia.
  - intros Hab. injection Hab as Hab. destruct (Hsame Hab) as [HM He52].
    fold M in HM.
    assert (HMK : M * Km = (Km * 2 ^ 39) * 8192).
    { rewrite HM. change (2 ^ 39) with 549755813888. lia. }
    specialize (Hexact _ HMK). fold M2 M Km P in Hexact.
    assert (HT152 : T1 = 4503599627370496) by (unfold T1; rewrite He52; reflexivity).
    assert (M2 = Km * T2).
    { apply (Z.mul_reg_r _ _ P); [lia|].
      rewrite <- Z.mul_assoc, <- HT, HT152, Hexact, HM. ring. }
    rewrite H. apply Z.div_mul. lia.
Qed.

End FloatFacts.

(** ** The new dimensions, for every image *)

Module ResizeBounds.
Import ImageProcessor Rounding FloatFacts ImageProcessorFacts.

Lemma truncated_scale_div (smaller larger : Z) :
  0 <= smaller -> 0 < larger ->
  truncated_scale smaller larger = smaller * MAX_DIMENSION / larger.
Proof.
  intros Hs Hl. unfold truncated_scale.
  apply Z.quot_div_nonneg; [|exact Hl].
  apply Z.mul_nonneg_nonneg; [exact Hs | unfold MAX_DIMENSION; lia].
Qed.

(** [int((a / b) * K)] for [0 <= a <= b]: the exact truncated quotient
    [a * K / b] or one less, and the exact one unless the quotient is a
    whole number; never below 0 or above [K]. *)
Lemma scale_within_one (a b K : Z) :
  0 <= a <= b -> 0 < b < 2 ^ 31 -> 1 <= K < 2 ^ 12 ->
  exists n,
    scale a b K = Return n
    /\ a * K / b - 1 <= n <= a * K / b
    /\ 0 <= n <= K
    /\ ((a * K) mod b <> 0 -> n = a * K / b)
    /\ (a = b -> n = K).
Proof.
  intros Ha Hb HK.
  destruct (Z.eq_dec a 0) as [->|Hpos].
  - exists 0. rewrite scale_zero by lia.
    rewrite Z.mul_0_l, Z.div_0_l by lia. rewrite Z.mod_0_l by lia.
    repeat split; try lia; congruence.
  - destruct (scale_ints a b K) as (n & Hn & Hone & Hexact & Hsame);
      [lia | lia | lia |].
    exists n. split; [exact Hn|]. split; [exact Hone|].
    split; [|split; [exact Hexact | exact Hsame]].
    assert (Hq : 0 <= a * K / b <= K).
    { split.
      - apply Z.div_pos; [|lia]. apply Z.mul_nonneg_nonneg; lia.
      - apply Z.div_le_upper_bound; [lia|].
        apply Z.mul_le_mono_nonneg_r; lia. }
    split; [|lia].
    destruct (Z.eq_dec ((a * K) mod b) 0) as [Hz|Hnz].
    + assert (1 <= a * K / b); [|lia].
      apply Z.div_le_lower_bound; [lia|].
      apply Z.mod_divide in Hz; [|lia]. destruct Hz as [c Hc].
      assert (0 < a * K) by (apply Z.mul_pos_pos; lia).
      assert (0 < c) by nia. nia.
    + rewrite (Hexact Hnz). lia.
Qed.

(** [int((smaller / larger) * 3840)] against the exact quotient. *)
Lemma scaled_within_one (smaller larger : Z) :
  0 <= smaller <= larger -> 0 < larger < 2 ^ 31 ->
  exists n,
    scaled smaller larger = Return n
    /\ truncated_scale smaller larger - 1 <= n <= truncated_scale smaller larger
    /\ 0 <= n <= MAX_DIMENSION
    /\ ((smaller * MAX_DIMENSION) mod larger <> 0 ->
        n = truncated_scale smaller larger)
    /\ (smaller = larger -> n = MAX_DIMENSION).
Proof.
  intros Hs Hl. rewrite truncated_scale_div by lia.
  change (scaled smaller larger) with (scale smaller larger MAX_DIMENSION).
  apply scale_within_one; [lia | lia |].
  unfold MAX_DIMENSION. change (2 ^ 12) with 4096. lia.
Qed.

Lemma new_dimensions_fit_aux (width height : Z) :
  0 <= width < 2 ^ 31 -> 0 <= height < 2 ^ 31 ->
  MAX_DIMENSION < Z.max width height ->
  exists new_width new_height,
    new_dimensions width height = Return (new_width, new_height)
    /\ Z.max new_width new_height = MAX_DIMENSION.
Proof.
  intros Hw Hh Hmax. unfold new_dimensions.
  assert (Hpos : 0 < Z.max width height)
    by (unfold MAX_DIMENSION in Hmax; lia).
  destruct (Z.gtb_spec width height) as [Hgt|Hle].
  - destruct (scaled_within_one height width) as (n & Hn & Hone & Hr & _);
      [lia | lia |].
    rewrite Hn. exists MAX_DIMENSION, n. split; [reflexivity | lia].
  - destruct (scaled_within_one width height) as (n & Hn & Hone & Hr & _);
      [lia | lia |].
    rewrite Hn. exists n, MAX_DIMENSION. split; [reflexivity | lia].
Qed.

(** For every image that is resized (sides below 2^31, the larger one
    above 3840) the computation of the new size returns: the side along
    the larger original side is 3840, the other lies between 0 and 3840
    and is the exact truncated quotient [smaller * 3840 / larger] or one
    less.  So the larger new side is always exactly 3840. *)
Theorem new_dimensions_fit (width height : Z) :
  0 <= width < 2 ^ 31 -> 0 <= height < 2 ^ 31 ->
  MAX_DIMENSION < Z.max width height ->
  exists new_width new_height,
    new_dimensions width height = Return (new_width, new_height)
    /\ Z.max new_width new_height = MAX_DIMENSION
    /\ 0 <= new_width /\ 0 <= new_height
    /\ (width > height ->
        new_width = MAX_DIMENSION
        /\ truncated_scale height width - 1 <= new_height
           <= truncated_scale height width)
    /\ (width <= height ->
        new_height = MAX_DIMENSION
        /\ truncated_scale width height - 1 <= new_width
           <= truncated_scale width height).
Proof.
  intros Hw Hh Hmax. unfold new_dimensions.
  assert (Hpos : 0 < Z.max width height)
    by (unfold MAX_DIMENSION in Hmax; lia).
  destruct (Z.gtb_spec width height) as [Hgt|Hle].
  - destruct (scaled_within_one height width) as (n & Hn & Hone & Hr & _);
      [lia | lia |].
    rewrite Hn. exists MAX_DIMENSION, n. unfold MAX_DIMENSION in *.
    repeat split; try lia.
  - destruct (scaled_within_one width height) as (n & Hn & Hone & Hr & _);
      [lia | lia |].
    rewrite Hn. exists n, MAX_DIMENSION. unfold MAX_DIMENSION in *.
    repeat split; try lia.
Qed.

(** A side more than 3840 times shorter than the other becomes 0: the
    resize is then asked for an empty image. *)
Theorem new_dimensions_empty_side (width height : Z) :
  0 <= height -> 0 < width < 2 ^ 31 ->
  height * MAX_DIMENSION < width ->
  new_dimensions width height = Return (MAX_DIMENSION, 0).
Proof.
  intros Hh Hw Hthin. unfold new_dimensions.
  replace (width >? height) with true
    by (symmetry; apply Z.gtb_lt; unfold MAX_DIMENSION in *; lia).
  destruct (scaled_within_one height width) as (n & Hn & Hone & Hr & _);
    [unfold MAX_DIMENSION in *; lia | lia |].
  rewrite truncated_scale_div in Hone by lia.
  rewrite Z.div_small in Hone by (unfold MAX_DIMENSION in *; lia).
  rewrite Hn. f_equal. f_equal. lia.
Qed.

Section WithCodec.
Context {W : Type} `{ImageCodec W}.

(** One pass is enough: a file that opens as an image of the size a
    transform asked for is skipped, with only the opening and the closing
    of the file. *)
Theorem resized_image_is_skipped (width height : Z) (file_path : Path)
    (s : @St W) (img : Image) (w' : W) :
  0 <= width < 2 ^ 31 -> 0 <= height < 2 ^ 31 ->
  MAX_DIMENSION < Z.max width height ->
  new_dimensions width height = Return (size img) ->
  Image_open file_path (fst s) = (Return img, w') ->
  process_image file_path s
  = (Return (false, skipped_message MAX_DIMENSION file_path),
     (Image_close img w',
      snd s ++ [EvOpen file_path (Return img); EvClose file_path])).
Proof.
  intros Hw Hh Hmax Hnew Hopen.
  destruct (new_dimensions_fit_aux width height Hw Hh Hmax)
    as (nw & nh & Hdims & Hfit).
  rewrite Hdims in Hnew. injection Hnew as Hsize.
  unfold process_image, process_image_body, with_, bind, call, lift, ret,
    try_except.
  rewrite Hopen, <- Hsize. cbn [fst snd]. rewrite Hfit.
  replace (MAX_DIMENSION <=? MAX_DIMENSION) with true by reflexivity.
  unfold close_image. cbn [fst snd]. now rewrite <- app_assoc.
Qed.

End WithCodec.

End ResizeBounds.

(** ** The pool and its workers *)

Module PoolFacts.
Import ImageProcessor ProcessingThread Observer Discovery.
Import ImageProcessorFacts ProcessingThreadFacts DiscoveryFacts.

(** Without a [max_workers] argument (or with 0) the thread takes twice
    the number of processors, at least 2 and at most 32. *)
Lemma default_workers (folder : Path) (workers cpu_count : option Z) :
  workers = None \/ workers = Some 0 ->
  (forall c, cpu_count = Some c -> 0 <= c) ->
  2 <= max_workers (init folder workers cpu_count) <= 32.
Proof.
  intros Hworkers Hcpu.
  assert (Hdefault : max_workers (init folder workers cpu_count)
                     = Z.min 32 (py_or cpu_count 1 * 2))
    by (destruct Hworkers as [-> | ->]; reflexivity).
  rewrite Hdefault. unfold py_or.
  destruct cpu_count as [c|]; [|lia].
  specialize (Hcpu c eq_refl). destruct (Z.eqb_spec c 0); lia.
Qed.

Section WithCodec.
Context {W : Type} `{ImageCodec W}.

(** With a pool, every discovered image is submitted, in the order of
    discovery, whatever the cancellation. *)
Lemma run_submits_all (HEIC_SUPPORT : bool) (format_exc : PyException -> string)
    (cr : nat -> bool) (ct : nat -> nat) (self : t) (s s1 : @St W)
    (images : list Path) :
  find_images HEIC_SUPPORT (folder_path self) s = (Return images, s1) ->
  0 < max_workers self ->
  submitted (run HEIC_SUPPORT format_exc cr ct self s) = images.
Proof.
  intros Hfind Hworkers. destruct images as [|img images].
  - now rewrite (run_no_images _ _ _ _ _ _ _ Hfind).
  - rewrite (run_collecting _ format_exc cr ct _ _ _ _ Hfind)
      by (congruence || assumption).
    rewrite !submitted_app, submitted_submit, submitted_iterations.
    destruct (Nat.ltb _ _); cbn [submitted preamble cancellation summary app];
      now rewrite app_nil_r.
Qed.

(** A thread created without a worker count always gets its pool: the
    count lies between 2 and 32, and every image discovery returns is
    handed to the pool, once and in the order of discovery, even when the
    run is cancelled before the first result. *)
Theorem default_thread_submits_every_image (HEIC_SUPPORT : bool)
    (format_exc : PyException -> string) (cr : nat -> bool) (ct : nat -> nat)
    (folder : Path) (workers cpu_count : option Z) (s s1 : @St W)
    (images : list Path) :
  workers = None \/ workers = Some 0 ->
  (forall c, cpu_count = Some c -> 0 <= c) ->
  find_images HEIC_SUPPORT folder s = (Return images, s1) ->
  2 <= max_workers (init folder workers cpu_count) <= 32
  /\ submitted (run HEIC_SUPPORT format_exc cr ct
                  (init folder workers cpu_count) s) = images.
Proof.
  intros Hworkers Hcpu Hfind.
  assert (Hrange := default_workers folder workers cpu_count Hworkers Hcpu).
  split; [exact Hrange|].
  apply (run_submits_all _ _ _ _ _ _ s1); [exact Hfind | lia].
Qed.

(** A negative worker count is kept as it is, and the pool refuses it:
    when images were found the run logs the fatal error and its
    traceback and ends with [finished(0, 0, 0)]; nothing is submitted and
    no file is processed. *)
Theorem run_refuses_negative_workers (HEIC_SUPPORT : bool)
    (format_exc : PyException -> string) (cr : nat -> bool) (ct : nat -> nat)
    (folder : Path) (n : Z) (cpu_count : option Z) (s s1 : @St W)
    (images : list Path) :
  n < 0 ->
  find_images HEIC_SUPPORT folder s = (Return images, s1) ->
  images <> [] ->
  let self := init folder (Some n) cpu_count in
  let tr := run HEIC_SUPPORT format_exc cr ct self s in
  tr = preamble self (Z.of_nat (List.length images))
         ++ [Emit (log_message
                     "Fatal error: max_workers must be greater than 0");
             Emit (log_message
                     (format_exc
                        (mkException "max_workers must be greater than 0")));
             Emit (finished 0 0 0)]
  /\ submitted tr = []
  /\ progress_events tr = []
  /\ finished_events tr = [(0, 0, 0)].
Proof.
  intros Hn Hfind Hsome self tr.
  assert (Hworkers : max_workers self = n).
  { subst self. unfold init, py_or. cbn [max_workers].
    destruct (Z.eqb_spec n 0); [lia | reflexivity]. }
  assert (Hrun : tr = preamble self (Z.of_nat (List.length images))
                   ++ fatal format_exc
                        (mkException "max_workers must be greater than 0")).
  { subst tr. apply (run_pool_refused _ _ _ _ _ _ s1); [exact Hfind | exact Hsome |].
    rewrite Hworkers. lia. }
  rewrite Hrun. repeat split.
Qed.

(** An error of the traversal does not escape the thread: when [rglob]
    raises, or an [is_file()] on one of its entries does, the run is the
    scan line, the fatal error, its traceback and [finished(0, 0, 0)];
    nothing is submitted. *)
Theorem run_reports_discovery_error (HEIC_SUPPORT : bool)
    (format_exc : PyException -> string) (cr : nat -> bool) (ct : nat -> nat)
    (self : t) (s : @St W) (e : PyException) :
  (exists w1, Path_rglob (folder_path self) (fst s) = (Raise e, w1))
  \/ (exists entries w1 s2,
        Path_rglob (folder_path self) (fst s) = (Return entries, w1)
        /\ ask_is_file entries
             (w1, snd s ++ [EvRglob (folder_path self) (Return entries)])
           = (Raise e, s2)) ->
  let tr := run HEIC_SUPPORT format_exc cr ct self s in
  tr = [Emit (log_message (scanning_message self));
        Emit (log_message ("Fatal error: " ++ exc_str e));
        Emit (log_message (format_exc e));
        Emit (finished 0 0 0)]
  /\ submitted tr = []
  /\ progress_events tr = []
  /\ finished_events tr = [(0, 0, 0)].
Proof.
  intros Hraise tr.
  assert (Hfind : exists s1,
             find_images HEIC_SUPPORT (folder_path self) s = (Raise e, s1)).
  { rewrite find_images_eq.
    destruct Hraise as [[w1 Hrglob] | (entries & w1 & s2 & Hrglob & Hask)];
      rewrite Hrglob; [eexists; reflexivity|].
    cbv zeta. rewrite Hask. eexists; reflexivity. }
  destruct Hfind as [s1 Hfind]. subst tr.
  rewrite (run_discovery_fails _ format_exc cr ct _ _ _ _ Hfind).
  repeat split.
Qed.

End WithCodec.

End PoolFacts.

(** ** The window *)

Module AppFacts.
Import ImageProcessor ProcessingThread Observer ReSizerApp PyStr.
Import ProcessingThreadFacts ResizeBounds PoolFacts.

Lemma rstrip_blank (s : PyStr.str) : blank s = true -> rstrip s = [].
Proof.
  induction s as [|c s IH]; cbn [blank rstrip]; [reflexivity|].
  intros Hblank. apply andb_prop in Hblank as [Hc Hs].
  now rewrite (IH Hs), Hc.
Qed.

Lemma lstrip_blank (s : PyStr.str) : blank s = true -> lstrip s = [].
Proof.
  induction s as [|c s IH]; cbn [blank lstrip]; [reflexivity|].
  intros Hblank. apply andb_prop in Hblank as [Hc Hs].
  rewrite Hc. exact (IH Hs).
Qed.

Lemma rstrip_empty (s : PyStr.str) : rstrip s = [] -> blank s = true.
Proof.
  induction s as [|c s IH]; cbn [blank rstrip]; [reflexivity|].
  destruct (rstrip s) as [|c' kept]; [|discriminate].
  destruct (is_space c); [|discriminate]. intros _. now rewrite IH.
Qed.

Lemma lstrip_head (s : PyStr.str) :
  lstrip s = [] \/ exists c rest, lstrip s = c :: rest /\ is_space c = false.
Proof.
  induction s as [|c s IH]; cbn [lstrip]; [now left|].
  destruct (is_space c) eqn:Hc; [exact IH|].
  right. now exists c, s.
Qed.

Lemma lstrip_empty (s : PyStr.str) : lstrip s = [] -> blank s = true.
Proof.
  induction s as [|c s IH]; cbn [blank lstrip]; [reflexivity|].
  destruct (is_space c); [|discriminate]. exact IH.
Qed.

(** [strip] gives the empty string exactly on text that is white space
    only. *)
Lemma strip_empty_iff (s : PyStr.str) : strip s = [] <-> blank s = true.
Proof.
  unfold strip. split.
  - intros Hstrip. apply lstrip_empty.
    destruct (lstrip_head s) as [Hl | (c & rest & Hl & Hc)]; [exact Hl|].
    apply rstrip_empty in Hstrip. rewrite Hl in Hstrip.
    cbn [blank] in Hstrip. now rewrite Hc in Hstrip.
  - intros Hblank. now rewrite (lstrip_blank s Hblank).
Qed.

Section WithCodec.
Context {W : Type} `{ImageCodec W}.
Variable to_path : PyStr.str -> Path.
Variable cpu_count : option Z.

(** The three ways [start_processing] can go, and the error of
    [exists()] that escapes it. *)
Lemma start_processing_cases (self : ReSizerApp.t) (s : @St W) :
  let folder := to_path (strip (folder_input_text self)) in
  start_processing to_path cpu_count self s
  = if blank (folder_input_text self) then
      (Return (self, [Warning "No Folder" "Please select a folder first."]), s)
    else
      match Path_exists folder (fst s) with
      | (Return true, w') =>
          (Return (started cpu_count self folder,
                   [ThreadStart (ProcessingThread.init folder None cpu_count)]),
           (w', snd s ++ [EvExists folder (Return true)]))
      | (Return false, w') =>
          (Return (self,
                   [Warning "Invalid Folder"
                      "The selected folder does not exist."]),
           (w', snd s ++ [EvExists folder (Return false)]))
      | (Raise e, w') => (Raise e, (w', snd s ++ [EvExists folder (Raise e)]))
      end.
Proof.
  intros folder. unfold start_processing.
  destruct (blank (folder_input_text self)) eqn:Hblank.
  - apply strip_empty_iff in Hblank. now rewrite Hblank.
  - destruct (strip (folder_input_text self)) as [|c rest] eqn:Hstrip.
    + apply strip_empty_iff in Hstrip. congruence.
    + cbn [is_empty]. unfold bind, call, ret. fold folder.
      destruct (Path_exists folder (fst s)) as [[[|]|e] w']; reflexivity.
Qed.

(** When a thread is started, it is the default thread of the folder and
    the window is the started one. *)
Lemma start_processing_started (self self1 : ReSizerApp.t)
    (thread : ProcessingThread.t) (s s1 : @St W) :
  start_processing to_path cpu_count self s
  = (Return (self1, [ThreadStart thread]), s1) ->
  let folder := to_path (strip (folder_input_text self)) in
  thread = ProcessingThread.init folder None cpu_count
  /\ self1 = started cpu_count self folder.
Proof.
  intros Hstart folder. rewrite start_processing_cases in Hstart.
  cbv zeta in Hstart. fold folder in Hstart.
  destruct (blank (folder_input_text self)); [discriminate|].
  destruct (Path_exists folder (fst s)) as [[[|]|e] w']; try discriminate.
  injection Hstart as <- <- _. split; reflexivity.
Qed.

(** A folder field that is empty or holds white space only is refused
    with the warning "No Folder": nothing is asked of the file system,
    no widget changes and no thread is created. *)
Theorem blank_folder_is_refused (self : ReSizerApp.t) (s : @St W) :
  blank (folder_input_text self) = true ->
  start_processing to_path cpu_count self s
  = (Return (self, [Warning "No Folder" "Please select a folder first."]), s).
Proof.
  intros Hblank. rewrite start_processing_cases. cbv zeta. now rewrite Hblank.
Qed.

(** A thread is started only for a folder that exists: when
    [start_processing] starts a thread, the folder field held more than
    white space, the one call made on the world was [exists()] on the
    stripped text and it answered true; the thread is a fresh one for that
    folder with the default worker count, and the window has its three
    controls disabled, an empty log, the bar at 0 and the status
    "Status: Running". *)
Theorem thread_started_only_for_existing_folder (self self' : ReSizerApp.t)
    (effs : list effect) (thread : ProcessingThread.t) (s s' : @St W) :
  start_processing to_path cpu_count self s = (Return (self', effs), s') ->
  In (ThreadStart thread) effs ->
  let folder := to_path (strip (folder_input_text self)) in
  blank (folder_input_text self) = false
  /\ fst (Path_exists folder (fst s)) = Return true
  /\ s' = (snd (Path_exists folder (fst s)),
           snd s ++ [EvExists folder (Return true)])
  /\ effs = [ThreadStart thread]
  /\ thread = ProcessingThread.init folder None cpu_count
  /\ self' = started cpu_count self folder.
Proof.
  intros Hstart Hin folder. rewrite start_processing_cases in Hstart.
  cbv zeta in Hstart. fold folder in Hstart.
  destruct (blank (folder_input_text self)).
  - injection Hstart as <- <- <-. destruct Hin as [Hin|[]]. discriminate.
  - destruct (Path_exists folder (fst s)) as [[[|]|e] w'];
      [| |discriminate].
    + injection Hstart as <- <- <-.
      destruct Hin as [Hin|[]]. injection Hin as <-. repeat split.
    + injection Hstart as <- <- <-. destruct Hin as [Hin|[]]. discriminate.
Qed.

End WithCodec.

(** For a count the run can emit [update_progress] returns and the bar
    holds what [int((current / total) * 100)] gives. *)
Lemma update_progress_spec (self : ReSizerApp.t) (current total : Z) :
  0 <= current <= total -> 0 < total < 2 ^ 31 ->
  exists self',
    update_progress self current total = Return self'
    /\ Rounding.scale current total 100 = Return (progress_bar_value self')
    /\ controls_enabled self' = controls_enabled self
    /\ processing_thread self' = processing_thread self.
Proof.
  intros Hcurrent Htotal. unfold update_progress.
  replace (total >? 0) with true by (symmetry; apply Z.gtb_lt; lia).
  destruct (scale_within_one current total 100)
    as (n & Hn & _ & Hrange & _);
    [lia | lia | change (2 ^ 12) with 4096; lia |].
  rewrite Hn. eexists. split; [reflexivity|].
  unfold progress_bar_setValue.
  replace ((0 <=? n) && (n <=? 100)) with true
    by (symmetry; apply andb_true_intro; split; apply Z.leb_le; lia).
  repeat split.
Qed.

(** The progress bar shows the truncated percentage or one less: for a
    count between 0 and the total (a total below 2^31) [update_progress]
    returns, the bar holds a value between 0 and 100 that is
    [current * 100 / total] or one less, exactly that unless the
    percentage is a whole number, and 100 when the count is the total;
    the controls and the log are left as they are. *)
Theorem update_progress_shows_percentage (self : ReSizerApp.t)
    (current total : Z) :
  0 <= current <= total -> 0 < total < 2 ^ 31 ->
  exists self',
    update_progress self current total = Return self'
    /\ current * 100 / total - 1 <= progress_bar_value self'
       <= current * 100 / total
    /\ 0 <= progress_bar_value self' <= 100
    /\ ((current * 100) mod total <> 0 ->
        progress_bar_value self' = current * 100 / total)
    /\ (current = total -> progress_bar_value self' = 100)
    /\ status_label_text self' = running_text current total
    /\ controls_enabled self' = controls_enabled self
    /\ log_output self' = log_output self
    /\ processing_thread self' = processing_thread self.
Proof.
  intros Hcurrent Htotal. unfold update_progress.
  replace (total >? 0) with true by (symmetry; apply Z.gtb_lt; lia).
  destruct (scale_within_one current total 100)
    as (n & Hn & Hone & Hrange & Hexact & Hsame);
    [lia | lia | change (2 ^ 12) with 4096; lia |].
  rewrite Hn. eexists. split; [reflexivity|].
  unfold progress_bar_setValue.
  replace ((0 <=? n) && (n <=? 100)) with true
    by (symmetry; apply andb_true_intro; split; apply Z.leb_le; lia).
  cbn [status_label_setText progress_bar_value status_label_text log_output
       controls_enabled start_button_enabled browse_button_enabled
       folder_input_enabled processing_thread].
  repeat split; try lia; assumption.
Qed.

(** The bound is reached: at 29 of 100 the bar shows 28. *)
Example update_progress_29_of_100 :
  update_progress ReSizerApp.init 29 100
  = Return (status_label_setText
              (progress_bar_setValue ReSizerApp.init 28)
              "Status: Running (29/100)").
Proof. vm_compute. reflexivity. Qed.

(** *** The signals of a run, as the window handles them *)

Lemma deliver_all_app (tr1 tr2 : list event) :
  forall self : ReSizerApp.t,
    deliver_all self (tr1 ++ tr2)
    = match deliver_all self tr1 with
      | Return (self1, effs1) =>
          match deliver_all self1 tr2 with
          | Return (self2, effs2) => Return (self2, effs1 ++ effs2)
          | Raise e => Raise e
          end
      | Raise e => Raise e
      end.
Proof.
  induction tr1 as [|ev tr1 IH]; intros self; cbn [deliver_all app].
  - destruct (deliver_all self tr2) as [[self2 effs2]|e]; reflexivity.
  - destruct (deliver self ev) as [[self' effs]|e]; [|reflexivity].
    rewrite IH.
    destruct (deliver_all self' tr1) as [[self1 effs1]|e]; [|reflexivity].
    destruct (deliver_all self1 tr2) as [[self2 effs2]|e]; [|reflexivity].
    now rewrite app_assoc.
Qed.

(** Before [finished] the window shows no dialog and leaves its controls
    and its thread as they are. *)
Lemma deliver_all_quiet (tr : list event) :
  finished_events tr = [] ->
  Forall (fun ev => 0 <= fst ev <= snd ev /\ 0 < snd ev < 2 ^ 31)
    (progress_events tr) ->
  forall self : ReSizerApp.t,
    exists self',
      deliver_all self tr = Return (self', [])
      /\ controls_enabled self' = controls_enabled self
      /\ processing_thread self' = processing_thread self.
Proof.
  induction tr as [|ev tr IH]; intros Hnone Hok self; cbn [deliver_all].
  - now exists self.
  - destruct ev as [[current total|message|p r k]|img|wait cancel_futures];
      cbn [finished_events progress_events deliver] in *.
    + inversion Hok as [|? ? [Hcurrent Htotal] Hrest]; subst.
      cbn [fst snd] in Hcurrent, Htotal.
      destruct (update_progress_spec self current total
                  Hcurrent Htotal)
        as (self1 & -> & _ & Hcontrols & Hthread).
      destruct (IH Hnone Hrest self1) as (self' & -> & Hc & Ht).
      exists self'. repeat split; congruence.
    + destruct (IH Hnone Hok (append_log self message)) as (self' & -> & Hc & Ht).
      exists self'. repeat split; assumption.
    + discriminate.
    + destruct (IH Hnone Hok self) as (self' & -> & Hc & Ht).
      exists self'. repeat split; assumption.
    + destruct (IH Hnone Hok self) as (self' & -> & Hc & Ht).
      exists self'. repeat split; assumption.
Qed.

(** The bar after a trace is the percentage of its last progress event. *)
Lemma deliver_all_last_progress (tr : list event) :
  Forall (fun ev => 0 <= fst ev <= snd ev /\ 0 < snd ev < 2 ^ 31)
    (progress_events tr) ->
  forall self : ReSizerApp.t,
    exists self' effs,
      deliver_all self tr = Return (self', effs)
      /\ (progress_events tr = [] ->
          progress_bar_value self' = progress_bar_value self)
      /\ (forall evs current total,
            progress_events tr = evs ++ [(current, total)] ->
            Rounding.scale current total 100
            = Return (progress_bar_value self')).
Proof.
  induction tr as [|ev tr IH]; intros Hok self; cbn [deliver_all].
  - exists self, []. repeat split.
    intros [|] ? ? Hnil; discriminate.
  - assert (Hother : progress_events (ev :: tr) = progress_events tr ->
              forall self1 effs1,
                deliver self ev = Return (self1, effs1) ->
                progress_bar_value self1 = progress_bar_value self ->
                exists self' effs,
                  match deliver self ev with
                  | Return (self1, effs1) =>
                      match deliver_all self1 tr with
                      | Return (self2, effs2) => Return (self2, effs1 ++ effs2)
                      | Raise e => Raise e
                      end
                  | Raise e => Raise e
                  end = Return (self', effs)
                  /\ (progress_events (ev :: tr) = [] ->
                      progress_bar_value self' = progress_bar_value self)
                  /\ (forall evs current total,
                        progress_events (ev :: tr) = evs ++ [(current, total)] ->
                        Rounding.scale current total 100
                        = Return (progress_bar_value self'))).
    { intros Hsame self1 effs1 Hdeliver Hbar. rewrite Hdeliver, Hsame.
      rewrite Hsame in Hok.
      destruct (IH Hok self1) as (self' & effs & -> & Hnil & Hlast).
      exists self', (effs1 ++ effs). split; [reflexivity|]. split.
      - intros Hempty. rewrite (Hnil Hempty). exact Hbar.
      - exact Hlast. }
    destruct ev as [[current total|message|p r k]|img|wait cancel_futures].
    + cbn [progress_events deliver] in *.
      inversion Hok as [|? ? [Hcurrent Htotal] Hrest]; subst.
      cbn [fst snd] in Hcurrent, Htotal.
      destruct (update_progress_spec self current total
                  Hcurrent Htotal)
        as (self1 & Hupdate & Hbar & _).
      rewrite Hupdate.
      destruct (IH Hrest self1) as (self' & effs & -> & Hnil & Hlast).
      exists self', effs. split; [reflexivity|]. split; [discriminate|].
      intros evs c t Hevs.
      destruct (progress_events tr) as [|ev' rest] eqn:Hpe.
      * destruct evs as [|? [|]]; try discriminate.
        injection Hevs as <- <-. rewrite (Hnil eq_refl). exact Hbar.
      * destruct evs as [|ev0 evs]; [discriminate|].
        injection Hevs as _ Hevs. apply (Hlast evs). exact Hevs.
    + apply (Hother eq_refl (append_log self message) []); reflexivity.
    + apply (Hother eq_refl (fst (processing_finished self p r k))
               (snd (processing_finished self p r k))); reflexivity.
    + apply (Hother eq_refl self []); reflexivity.
    + apply (Hother eq_refl self []); reflexivity.
Qed.

Section Session.
Context {W : Type} `{ImageCodec W}.

(** A run is a trace without [finished] followed by one [finished]. *)
Lemma run_then_finished (HEIC_SUPPORT : bool)
    (format_exc : PyException -> string) (cr : nat -> bool) (ct : nat -> nat)
    (self : ProcessingThread.t) (s : @St W) :
  exists tr p r k,
    run HEIC_SUPPORT format_exc cr ct self s = tr ++ [Emit (finished p r k)]
    /\ finished_events tr = [].
Proof.
  destruct (find_images HEIC_SUPPORT (folder_path self) s)
    as [[images|e] s1] eqn:Hfind.
  - destruct images as [|img images].
    + rewrite (run_no_images _ _ _ _ _ _ _ Hfind).
      exists [Emit (log_message (scanning_message self));
              Emit (log_message "No supported images found.")], 0, 0, 0.
      split; reflexivity.
    + destruct (Z.leb_spec (max_workers self) 0) as [Hworkers|Hworkers].
      * rewrite (run_pool_refused _ format_exc cr ct _ _ _ _ Hfind)
          by (congruence || assumption).
        eexists (preamble self _ ++ [_; _]), 0, 0, 0.
        split; reflexivity.
      * rewrite (run_collecting _ format_exc cr ct _ _ _ _ Hfind)
          by (congruence || assumption).
        set (total := Z.of_nat (List.length (img :: images))).
        set (rs := map snd (execute _ s1)).
        set (j := checks_passed _ _ _ _).
        set (c := tally_all (firstn j rs) no_counts).
        exists (preamble self total ++ map Submit (img :: images)
                  ++ (iterations total (firstn j rs) no_counts
                        ++ (if Nat.ltb j (List.length (img :: images))
                            then cancellation else []))
                  ++ [Shutdown true false]),
          (processed_count c), (total_resized c), (total_skipped c).
        split.
        -- rewrite <- !app_assoc. reflexivity.
        -- rewrite !finished_events_app, finished_events_submit,
             finished_events_iterations.
           destruct (Nat.ltb j _); reflexivity.
  - rewrite (run_discovery_fails _ format_exc cr ct _ _ _ _ Hfind).
    eexists [_; _; _], 0, 0, 0. split; reflexivity.
Qed.

(** The progress events of a run carry counts the bar can show. *)
Lemma run_progress_in_range (HEIC_SUPPORT : bool)
    (format_exc : PyException -> string) (cr : nat -> bool) (ct : nat -> nat)
    (self : ProcessingThread.t) (s : @St W) :
  Z.of_nat (List.length (fst (discovered HEIC_SUPPORT self s))) < 2 ^ 31 ->
  Forall (fun ev => 0 <= fst ev <= snd ev /\ 0 < snd ev < 2 ^ 31)
    (progress_events (run HEIC_SUPPORT format_exc cr ct self s)).
Proof.
  unfold discovered.
  destruct (find_images HEIC_SUPPORT (folder_path self) s)
    as [[images|e] s1] eqn:Hfind; cbn [fst]; intros Hsmall.
  - destruct (run_progress_events HEIC_SUPPORT format_exc cr ct self s s1
                images Hfind) as (j & Hj & -> & _).
    apply Forall_forall. intros ev Hev.
    apply in_map_iff in Hev. destruct Hev as (i & <- & Hi).
    apply in_seq in Hi. cbn [fst snd]. lia.
  - rewrite (run_discovery_fails _ format_exc cr ct _ _ _ _ Hfind).
    constructor.
Qed.

Variable to_path : PyStr.str -> Path.
Variable cpu_count : option Z.

(** From the start of a run to its [finished] signal the three controls
    stay disabled and no dialog is shown; the [finished] signal, which
    every run emits (when it completes, is cancelled or fails), enables
    them again, sets the status to "Status: Complete", appends the summary
    to the log and shows the one completion dialog, with the counters of
    the signal. *)
Theorem controls_locked_until_finished (HEIC_SUPPORT : bool)
    (format_exc : PyException -> string) (cr : nat -> bool) (ct : nat -> nat)
    (self self1 : ReSizerApp.t) (thread : ProcessingThread.t)
    (s s1 : @St W) :
  start_processing to_path cpu_count self s
  = (Return (self1, [ThreadStart thread]), s1) ->
  Z.of_nat (List.length (fst (discovered HEIC_SUPPORT thread s1))) < 2 ^ 31 ->
  let tr := run HEIC_SUPPORT format_exc cr ct thread s1 in
  (forall before after,
      tr = before ++ after -> after <> [] ->
      exists mid,
        deliver_all self1 before = Return (mid, [])
        /\ controls_enabled mid = (false, false, false))
  /\ exists final p r k,
       deliver_all self1 tr
       = Return (final, [Information "Complete" (completion_text p r k)])
       /\ finished_events tr = [(p, r, k)]
       /\ controls_enabled final = (true, true, true)
       /\ status_label_text final = "Status: Complete"
       /\ last (log_output final) "" = summary_text p r k.
Proof.
  intros Hstart Hsmall tr.
  assert (Hlocked : controls_enabled self1 = (false, false, false)).
  { destruct (start_processing_started to_path cpu_count self self1 thread
                s s1 Hstart) as (_ & ->). reflexivity. }
  assert (Hok := run_progress_in_range HEIC_SUPPORT format_exc cr ct thread s1
                   Hsmall).
  destruct (run_then_finished HEIC_SUPPORT format_exc cr ct thread s1)
    as (quiet & p & r & k & Hrun & Hnone).
  fold tr in Hok, Hrun. rewrite Hrun in Hok |- *.
  rewrite progress_events_app in Hok. apply Forall_app in Hok as [Hok _].
  split.
  - intros before after Hsplit Hafter.
    destruct (exists_last Hafter) as (after' & ev & ->).
    rewrite app_assoc in Hsplit. apply app_inj_tail in Hsplit as [Hquiet _].
    rewrite Hquiet, finished_events_app in Hnone.
    apply app_eq_nil in Hnone as [Hnone _].
    rewrite Hquiet, progress_events_app in Hok.
    apply Forall_app in Hok as [Hok _].
    destruct (deliver_all_quiet before Hnone Hok self1) as (mid & Hmid & Hc & _).
    exists mid. split; [exact Hmid | congruence].
  - destruct (deliver_all_quiet quiet Hnone Hok self1) as (mid & Hmid & Hc & _).
    rewrite deliver_all_app, Hmid. cbn [deliver_all deliver].
    eexists _, p, r, k. split; [reflexivity|].
    split; [now rewrite finished_events_app, Hnone|].
    cbn [processing_finished fst snd controls_enabled append_log
         status_label_setStyleSheet status_label_setText controls_setEnabled
         start_button_enabled browse_button_enabled folder_input_enabled
         status_label_text log_output].
    repeat split. apply last_last.
Qed.

(** A run that is not cancelled leaves the bar at 100: with at least one
    image found (fewer than 2^31) and no call of [cancel], the window that
    started the thread ends the run with the bar at exactly 100. *)
Theorem progress_bar_full_after_run (HEIC_SUPPORT : bool)
    (format_exc : PyException -> string) (cr : nat -> bool) (ct : nat -> nat)
    (self self1 : ReSizerApp.t) (thread : ProcessingThread.t)
    (s s1 s2 : @St W) (images : list Path) :
  start_processing to_path cpu_count self s
  = (Return (self1, [ThreadStart thread]), s1) ->
  (forall c, cpu_count = Some c -> 0 <= c) ->
  find_images HEIC_SUPPORT (folder_path thread) s1 = (Return images, s2) ->
  images <> [] ->
  Z.of_nat (List.length images) < 2 ^ 31 ->
  (forall k, cr k = false) ->
  exists final effs,
    deliver_all self1 (run HEIC_SUPPORT format_exc cr ct thread s1)
    = Return (final, effs)
    /\ progress_bar_value final = 100.
Proof.
  intros Hstart Hcpu Hfind Hsome Hsmall Hnever.
  destruct (start_processing_started to_path cpu_count self self1 thread
              s s1 Hstart) as (Hthread & _).
  assert (Hworkers : 0 < max_workers thread).
  { rewrite Hthread.
    assert (Hrange := default_workers
                        (to_path (strip (folder_input_text self))) None
                        cpu_count (or_introl eq_refl) Hcpu).
    lia. }
  assert (Hflag : is_cancelled thread = false) by (now rewrite Hthread).
  assert (Hok : Forall (fun ev => 0 <= fst ev <= snd ev /\ 0 < snd ev < 2 ^ 31)
                  (progress_events
                     (run HEIC_SUPPORT format_exc cr ct thread s1))).
  { apply run_progress_in_range. unfold discovered. now rewrite Hfind. }
  destruct (run_progress_events HEIC_SUPPORT format_exc cr ct thread s1 s2
              images Hfind) as (j & _ & Hevents & Hall).
  rewrite (Hall (conj Hflag Hnever) Hworkers) in Hevents.
  destruct (deliver_all_last_progress _ Hok self1)
    as (final & effs & Hdeliver & _ & Hlast).
  exists final, effs. split; [exact Hdeliver|].
  destruct images as [|img images]; [congruence|].
  set (n := List.length images) in *.
  assert (Hseq : map (fun i => (Z.of_nat i, Z.of_nat (List.length (img :: images))))
                   (seq 1 (List.length (img :: images)))
                 = map (fun i => (Z.of_nat i, Z.of_nat (S n))) (seq 1 n)
                     ++ [(Z.of_nat (S n), Z.of_nat (S n))]).
  { cbn [List.length]. fold n. rewrite seq_S, map_app. reflexivity. }
  rewrite Hseq in Hevents.
  specialize (Hlast _ _ _ Hevents).
  destruct (scale_within_one (Z.of_nat (S n)) (Z.of_nat (S n)) 100)
    as (p & Hp & _ & _ & _ & Hsame);
    [lia | cbn [List.length] in Hsmall; fold n in Hsmall; lia
     | change (2 ^ 12) with 4096; lia |].
  rewrite Hp in Hlast. injection Hlast as <-. now apply Hsame.
Qed.

End Session.

(** Closing the window: without a running thread the event is accepted
    at once and nothing is asked; with one, the user is asked, and the
    answer No ignores the event and changes nothing.  The answer Yes calls
    [cancel] on the thread, waits for it and accepts the event, and the
    loop of the thread, at its next check, handles no further result: it
    shuts the pool down and leaves the counters as they are. *)
Theorem quitting_stops_the_loop (self : ReSizerApp.t)
    (thread : ProcessingThread.t) :
  processing_thread self = Some thread ->
  let asked :=
    Question "Processing in Progress"
      "Processing is still running. Are you sure you want to quit?" in
  closeEvent self true Yes
  = (set_processing_thread self (cancel thread),
     [asked Yes; ThreadCancel; ThreadWait; EventAccept])
  /\ (forall cr k total completed c,
        completed <> [] ->
        collect cr k (cancel thread) total completed c = (cancellation, c))
  /\ closeEvent self true No = (self, [asked No; EventIgnore])
  /\ (forall reply, closeEvent self false reply = (self, [EventAccept])).
Proof.
  intros Hthread asked. unfold closeEvent. rewrite Hthread.
  repeat split.
  intros cr k total [|[f r] rest] c Hsome; [congruence|].
  cbn [collect]. now destruct (cr k).
Qed.

End AppFacts.

(** ** The properties at work *)

Module Examples.
Import ImageProcessor ProcessingThread Observer Scenario Discovery ReSizerApp.
Import PyStr.
Import DiscoveryFacts ResizeBounds PoolFacts AppFacts.

Lemma three_files_found :
  find_images false (folder_path thread) (Sim.three_files, [])
  = (Return (map fst Sim.three_files), three_found).
Proof. vm_compute. reflexivity. Qed.

Lemma four_processors : forall c, Some 4 = Some c -> 0 <= c.
Proof. intros c Hc. injection Hc as <-. lia. Qed.

(** Discovery in the folder of three files: one [rglob], three
    [is_file()], three images. *)
Lemma find_images_reads_and_filters_witness :
  exists answers,
    snd three_found
    = [] ++ EvRglob (folder_path thread) (Return (map fst answers))
           :: is_file_events answers
    /\ map fst Sim.three_files = kept false answers
    /\ forall p,
         In p (map fst Sim.three_files)
         <-> In (p, true) answers /\ is_supported false p = true.
Proof.
  exact (find_images_reads_and_filters false (folder_path thread)
           (Sim.three_files, []) three_found (map fst Sim.three_files)
           three_files_found).
Defined.

(** [big.png] is written to [big.webp], which discovery would not pick
    up again. *)
Lemma discovered_file_has_other_output_witness :
  exists output_path,
    with_suffix (Sim.photo "big.png") ".webp" = Return output_path
    /\ output_path <> Sim.photo "big.png"
    /\ parent output_path = parent (Sim.photo "big.png")
    /\ suffix output_path = ".webp"%string
    /\ forall heic, is_supported heic output_path = false.
Proof.
  exact (discovered_file_has_other_output false (folder_path thread)
           (Sim.three_files, []) three_found (map fst Sim.three_files)
           three_files_found (Sim.photo "big.png") (or_introl eq_refl)).
Defined.

(** A 4000 x 2050 image: 3840 wide, and 1968 or 1967 high. *)
Lemma new_dimensions_fit_witness :
  exists new_width new_height,
    new_dimensions 4000 2050 = Return (new_width, new_height)
    /\ Z.max new_width new_height = MAX_DIMENSION
    /\ 0 <= new_width /\ 0 <= new_height
    /\ (4000 > 2050 ->
        new_width = MAX_DIMENSION
        /\ truncated_scale 2050 4000 - 1 <= new_height
           <= truncated_scale 2050 4000)
    /\ (4000 <= 2050 ->
        new_height = MAX_DIMENSION
        /\ truncated_scale 4000 2050 - 1 <= new_width
           <= truncated_scale 4000 2050).
Proof.
  assert (Hwidth : 0 <= 4000 < 2 ^ 31)
    by (change (2 ^ 31) with 2147483648; lia).
  assert (Hheight : 0 <= 2050 < 2 ^ 31)
    by (change (2 ^ 31) with 2147483648; lia).
  assert (Hmax : MAX_DIMENSION < Z.max 4000 2050)
    by (vm_compute; reflexivity).
  exact (new_dimensions_fit 4000 2050 Hwidth Hheight Hmax).
Defined.

(** A strip of 4000 x 1 pixels is to become 3840 x 0. *)
Lemma new_dimensions_empty_side_witness :
  new_dimensions 4000 1 = Return (MAX_DIMENSION, 0).
Proof.
  assert (Hheight : 0 <= 1) by lia.
  assert (Hwidth : 0 < 4000 < 2 ^ 31)
    by (change (2 ^ 31) with 2147483648; lia).
  assert (Hthin : 1 * MAX_DIMENSION < 4000) by (vm_compute; reflexivity).
  exact (new_dimensions_empty_side 4000 1 Hheight Hwidth Hthin).
Defined.

(** [edge.jpg] has the size a 7680 x 4320 image is given: it is skipped. *)
Lemma resized_image_is_skipped_witness :
  process_image (Sim.photo "edge.jpg") (Sim.three_files, [])
  = (Return (false, skipped_message MAX_DIMENSION (Sim.photo "edge.jpg")),
     (Image_close (mkImage (3840, 2160) "RGB") Sim.three_files,
      snd (Sim.three_files, @nil fs_event)
        ++ [EvOpen (Sim.photo "edge.jpg") (Return (mkImage (3840, 2160) "RGB"));
            EvClose (Sim.photo "edge.jpg")])).
Proof.
  assert (Hwidth : 0 <= 7680 < 2 ^ 31)
    by (change (2 ^ 31) with 2147483648; lia).
  assert (Hheight : 0 <= 4320 < 2 ^ 31)
    by (change (2 ^ 31) with 2147483648; lia).
  assert (Hmax : MAX_DIMENSION < Z.max 7680 4320)
    by (vm_compute; reflexivity).
  assert (Hnew : new_dimensions 7680 4320
                 = Return (size (mkImage (3840, 2160) "RGB")))
    by (vm_compute; reflexivity).
  assert (Hopen : Image_open (Sim.photo "edge.jpg")
                    (fst (Sim.three_files, @nil fs_event))
                  = (Return (mkImage (3840, 2160) "RGB"), Sim.three_files))
    by reflexivity.
  exact (resized_image_is_skipped 7680 4320 (Sim.photo "edge.jpg")
           (Sim.three_files, []) (mkImage (3840, 2160) "RGB") Sim.three_files
           Hwidth Hheight Hmax Hnew Hopen).
Defined.

(** Four processors give eight workers, and the three files are
    submitted although the run is cancelled after the first result. *)
Lemma default_thread_submits_every_image_witness :
  2 <= max_workers (ProcessingThread.init (folder_path thread) None (Some 4))
    <= 32
  /\ submitted
       (run false Sim.format_exc after_one reversed
          (ProcessingThread.init (folder_path thread) None (Some 4))
          (Sim.three_files, []))
     = map fst Sim.three_files.
Proof.
  exact (default_thread_submits_every_image false Sim.format_exc after_one
           reversed (folder_path thread) None (Some 4) (Sim.three_files, [])
           three_found (map fst Sim.three_files)
           (or_introl eq_refl) four_processors three_files_found).
Defined.

(** [ProcessingThread("/photos", -1)] on the three files. *)
Lemma run_refuses_negative_workers_witness :
  let self := ProcessingThread.init (folder_path thread) (Some (-1)) (Some 4) in
  let tr := run false Sim.format_exc never in_order self (Sim.three_files, []) in
  tr = preamble self (Z.of_nat (List.length (map fst Sim.three_files)))
         ++ [Emit (log_message
                     "Fatal error: max_workers must be greater than 0");
             Emit (log_message
                     (Sim.format_exc
                        (mkException "max_workers must be greater than 0")));
             Emit (finished 0 0 0)]
  /\ submitted tr = []
  /\ progress_events tr = []
  /\ finished_events tr = [(0, 0, 0)].
Proof.
  assert (Hnegative : -1 < 0) by lia.
  assert (Hsome : map fst Sim.three_files <> []) by discriminate.
  exact (run_refuses_negative_workers false Sim.format_exc never in_order
           (folder_path thread) (-1) (Some 4) (Sim.three_files, [])
           three_found (map fst Sim.three_files)
           Hnegative three_files_found Hsome).
Defined.

(** On the disk that fails [rglob] raises and the run reports it. *)
Lemma run_reports_discovery_error_witness :
  let tr := run false Sim.format_exc never in_order thread (tt, []) in
  tr = [Emit (log_message (scanning_message thread));
        Emit (log_message
                ("Fatal error: "
                   ++ exc_str (mkException "[Errno 5] Input/output error")));
        Emit (log_message
                (Sim.format_exc (mkException "[Errno 5] Input/output error")));
        Emit (finished 0 0 0)]
  /\ submitted tr = []
  /\ progress_events tr = []
  /\ finished_events tr = [(0, 0, 0)].
Proof.
  refine (run_reports_discovery_error false Sim.format_exc never in_order
            thread (tt, []) (mkException "[Errno 5] Input/output error") _).
  left. exists tt. reflexivity.
Defined.

(** Start pressed on a field that holds a tab, a no-break space, an
    ideographic space and a space. *)
Lemma blank_folder_is_refused_witness :
  start_processing Disk.path_of Desk.cpu_count Desk.spaces (Desk.disk, [])
  = (Return (Desk.spaces,
             [Warning "No Folder" "Please select a folder first."]),
     (Desk.disk, [])).
Proof.
  exact (blank_folder_is_refused Disk.path_of Desk.cpu_count Desk.spaces
           (Desk.disk, []) eq_refl).
Defined.

Lemma start_pressed :
  start_processing Disk.path_of Desk.cpu_count Desk.window (Desk.disk, [])
  = (Return (Desk.running, [ThreadStart Desk.worker]), Desk.after_click).
Proof. vm_compute. reflexivity. Qed.

Lemma start_pressed_typed :
  start_processing Disk.path_of Desk.cpu_count Desk.typed (Desk.disk, [])
  = (Return (started Desk.cpu_count Desk.typed Desk.folder,
             [ThreadStart Desk.worker]),
     Desk.after_click).
Proof. vm_compute. reflexivity. Qed.

(** Start pressed once [/photos] has been typed between a no-break space
    and an ideographic space: the thread is started for [/photos]. *)
Lemma thread_started_only_for_existing_folder_witness :
  strip (folder_input_text Desk.typed) = of_string "/photos"
  /\ let folder := Disk.path_of (strip (folder_input_text Desk.typed)) in
     blank (folder_input_text Desk.typed) = false
     /\ fst (Path_exists folder (fst (Desk.disk, @nil fs_event))) = Return true
     /\ Desk.after_click
        = (snd (Path_exists folder (fst (Desk.disk, @nil fs_event))),
           snd (Desk.disk, @nil fs_event) ++ [EvExists folder (Return true)])
     /\ [ThreadStart Desk.worker] = [ThreadStart Desk.worker]
     /\ Desk.worker = ProcessingThread.init folder None Desk.cpu_count
     /\ started Desk.cpu_count Desk.typed Desk.folder
        = started Desk.cpu_count Desk.typed folder.
Proof.
  split; [vm_compute; reflexivity|].
  exact (thread_started_only_for_existing_folder Disk.path_of Desk.cpu_count
           Desk.typed (started Desk.cpu_count Desk.typed Desk.folder)
           [ThreadStart Desk.worker] Desk.worker
           (Desk.disk, []) Desk.after_click start_pressed_typed
           (or_introl eq_refl)).
Defined.

(** One file of three: the bar shows 33. *)
Lemma update_progress_shows_percentage_witness :
  exists self',
    update_progress Desk.running 1 3 = Return self'
    /\ 1 * 100 / 3 - 1 <= progress_bar_value self' <= 1 * 100 / 3
    /\ 0 <= progress_bar_value self' <= 100
    /\ ((1 * 100) mod 3 <> 0 -> progress_bar_value self' = 1 * 100 / 3)
    /\ (1 = 3 -> progress_bar_value self' = 100)
    /\ status_label_text self' = running_text 1 3
    /\ controls_enabled self' = controls_enabled Desk.running
    /\ log_output self' = log_output Desk.running
    /\ processing_thread self' = processing_thread Desk.running.
Proof.
  assert (Hcurrent : 0 <= 1 <= 3) by lia.
  assert (Htotal : 0 < 3 < 2 ^ 31) by (change (2 ^ 31) with 2147483648; lia).
  exact (update_progress_shows_percentage Desk.running 1 3 Hcurrent Htotal).
Defined.

(** The whole session on the three files. *)
Lemma controls_locked_until_finished_witness :
  (forall before after,
      Desk.signals = before ++ after -> after <> [] ->
      exists mid,
        deliver_all Desk.running before = Return (mid, [])
        /\ controls_enabled mid = (false, false, false))
  /\ exists final p r k,
       deliver_all Desk.running Desk.signals
       = Return (final, [Information "Complete" (completion_text p r k)])
       /\ finished_events Desk.signals = [(p, r, k)]
       /\ controls_enabled final = (true, true, true)
       /\ status_label_text final = "Status: Complete"%string
       /\ last (log_output final) ""%string = summary_text p r k.
Proof.
  assert (Hsmall : Z.of_nat (List.length
                     (fst (discovered false Desk.worker Desk.after_click)))
                   < 2 ^ 31)
    by (vm_compute; reflexivity).
  exact (controls_locked_until_finished Disk.path_of Desk.cpu_count false
           Sim.format_exc never reversed Desk.window Desk.running Desk.worker
           (Desk.disk, []) Desk.after_click start_pressed Hsmall).
Defined.

(** The three files, nobody cancels: the bar ends at 100. *)
Lemma progress_bar_full_after_run_witness :
  exists final effs,
    deliver_all Desk.running Desk.signals = Return (final, effs)
    /\ progress_bar_value final = 100.
Proof.
  assert (Hfind : find_images false (folder_path Desk.worker) Desk.after_click
                  = (Return (map fst Sim.three_files), Desk.found))
    by (vm_compute; reflexivity).
  assert (Hsome : map fst Sim.three_files <> []) by discriminate.
  assert (Hsmall : Z.of_nat (List.length (map fst Sim.three_files)) < 2 ^ 31)
    by (vm_compute; reflexivity).
  exact (progress_bar_full_after_run Disk.path_of Desk.cpu_count false
           Sim.format_exc never reversed Desk.window Desk.running Desk.worker
           (Desk.disk, []) Desk.after_click Desk.found
           (map fst Sim.three_files)
           start_pressed four_processors Hfind Hsome Hsmall
           (fun k => eq_refl)).
Defined.

(** The window is closed while the three files are processed. *)
Lemma quitting_stops_the_loop_witness :
  let asked :=
    Question "Processing in Progress"
      "Processing is still running. Are you sure you want to quit?" in
  closeEvent Desk.running true Yes
  = (set_processing_thread Desk.running (cancel Desk.worker),
     [asked Yes; ThreadCancel; ThreadWait; EventAccept])
  /\ (forall cr k total completed c,
        completed <> [] ->
        collect cr k (cancel Desk.worker) total completed c = (cancellation, c))
  /\ closeEvent Desk.running true No = (Desk.running, [asked No; EventIgnore])
  /\ (forall reply, closeEvent Desk.running false reply
                    = (Desk.running, [EventAccept])).
Proof.
  exact (quitting_stops_the_loop Desk.running Desk.worker eq_refl).
Defined.

End Examples.
